(** * mig-controller: the DirectVolumeMigration reconcile step and the
      DirectImageMigration trace correlator

    A shallow embedding of
    - [pkg/controller/directvolumemigration/migrate.go]
      ([migrate], [getDVMPlanResources], [getSparseFilePVCMap],
      [getEndpointType]) and
    - [pkg/controller/directimagemigration/trace.go] ([initTracer]).

    Conventions of the embedding.
    - A Go pointer that may be nil is an [option]; a Go [error] value is an
      [option error] ([None] is the nil error); a Go pair [(v, err)] is a
      Rocq pair.
    - Dereferencing a nil pointer panics: functions that can do so return an
      [outcome], either [Returns v] or [Panics].
    - The migration object [direct] is shared between [migrate] and the task
      ([task.Owner = direct]): it is threaded as one value through the step
      executor and [Task.fail], never copied into the task.
    - A Go [map[string]T] is a [gmap string T]. *)

From Stdlib Require Import ZArith Ascii.
From stdpp Require Import base option list strings pretty gmap.

Local Open Scope string_scope.

(** ** Go control flow: normal return or panic *)

Inductive outcome (A : Type) : Type :=
| Returns (a : A)
| Panics.
Arguments Returns {A} a.
Arguments Panics {A}.

#[global] Instance outcome_ret : MRet outcome := fun A a => Returns a.

#[global] Instance outcome_bind : MBind outcome := fun A B k m =>
  match m with
  | Returns a => k a
  | Panics => Panics
  end.

(** [deref p]: the value behind a pointer, or a nil-pointer panic. *)
Definition deref {A : Type} (p : option A) : outcome A :=
  match p with
  | Some a => Returns a
  | None => Panics
  end.

(** ** Go error values

    The error values the reconciler can meet, as a chain linked by
    [Unwrap()]: an API status error (k8s.io/apimachinery [*StatusError],
    with its reason), a sentinel made by [errors.New] (compared by identity,
    here its [id]), a [fmt.Errorf("...%w")] wrapper, and the [*liberr.Error]
    that [liberr.Wrap] builds around an error. *)

Inductive StatusReason : Type :=
| StatusReasonNotFound
| StatusReasonConflict
| StatusReasonForbidden
| StatusReasonUnknown.

Inductive error : Type :=
| StatusError (reason : StatusReason) (message : string)
| ErrorNew (id : nat) (text : string)
| ErrorWrap (text : string) (wrapped : error)
| LibError (wrapped : error).

#[global] Instance StatusReason_eq_dec : EqDecision StatusReason.
Proof. solve_decision. Defined.

#[global] Instance error_eq_dec : EqDecision error.
Proof. solve_decision. Defined.

(** [err.Error()]: a [*liberr.Error] prints the error it wraps. *)
Fixpoint Error (e : error) : string :=
  match e with
  | StatusError _ m => m
  | ErrorNew _ t => t
  | ErrorWrap t _ => t
  | LibError w => Error w
  end.

Module errors.

(** [errors.Unwrap]: one link of the chain, nil at its end. *)
Definition Unwrap (e : error) : option error :=
  match e with
  | ErrorWrap _ w | LibError w => Some w
  | StatusError _ _ | ErrorNew _ _ => None
  end.

(** [errors.Is(err, target)]: some error of [err]'s chain is [target]. *)
Fixpoint Is (e target : error) : bool :=
  bool_decide (e = target) ||
  match e with
  | ErrorWrap _ w | LibError w => Is w target
  | StatusError _ _ | ErrorNew _ _ => false
  end.

End errors.

Module liberr.

(** [liberr.Wrap(err)] (github.com/konveyor/controller/pkg/error):
    "Returns `err` when err is `nil` or error", that is a nil error stays
    nil, a [*liberr.Error] is returned as it is, and any other error is
    wrapped in a new [*liberr.Error]. *)
Definition Wrap (err : option error) : option error :=
  match err with
  | None => None
  | Some (LibError w) => Some (LibError w)
  | Some e => Some (LibError e)
  end.

End liberr.

Module errorutil.

(** Modelled from the spec: [errorutil.Unwrap] (pkg/errorutil, not among
    the sources) yields "the underlying error" whose kind the engine
    inspects: it follows [Unwrap()] to the innermost error of the chain. *)
Fixpoint Unwrap (e : error) : error :=
  match e with
  | ErrorWrap _ w | LibError w => Unwrap w
  | StatusError _ _ | ErrorNew _ _ => e
  end.

End errorutil.

Module k8serrors.

(** [ReasonForError]: the reason of an API status error, unknown for any
    other error. *)
Definition ReasonForError (e : error) : StatusReason :=
  match e with
  | StatusError r _ => r
  | _ => StatusReasonUnknown
  end.

Definition IsConflict (e : error) : bool :=
  bool_decide (ReasonForError e = StatusReasonConflict).


End k8serrors.

(** ** The API types (package [migapi], pkg/apis/migration/v1alpha1)

    The package is not among the sources; its types are read off the fields
    and methods that migrate.go and trace.go use, and the spec's data model.
    Struct fields keep their Go names, with a prefix where two structs share
    one ([Name] and [Status]). *)

Module migapi.

Definition Time := Z.

Record OwnerReference := {
  Kind : string;
  UID : string;
  OwnerName : string
}.

(** *** Conditions *)

Record Condition := {
  Type_ : string;
  Status : string;
  Reason : string;
  Category : string;
  Message : string;
  Durable : bool
}.

#[global] Instance Condition_eq_dec : EqDecision Condition.
Proof. solve_decision. Defined.

Abbreviation Conditions := (list Condition).

(** Modelled from the spec: the condition list of a status holds "typed
    status assertions"; a condition is looked up by its type, the first
    one of that type counts. *)
Fixpoint find (cndType : string) (l : Conditions) : option (nat * Condition) :=
  match l with
  | [] => None
  | c :: l' =>
      if decide (Type_ c = cndType) then Some (0, c)
      else prod_map S id <$> find cndType l'
  end.

(** Modelled from the spec: [FindCondition] is the condition of the given
    type, nil when there is none. *)
Definition FindCondition (cndType : string) (l : Conditions) : option Condition :=
  snd <$> find cndType l.

(** Modelled from the spec: [SetCondition] "sets/replaces" a condition: one
    of the same type is replaced where it stands ("replaced (not
    appended)"), otherwise the condition is appended. *)
Definition SetCondition (condition : Condition) (l : Conditions) : Conditions :=
  match find (Type_ condition) l with
  | Some (i, _) => <[i := condition]> l
  | None => l ++ [condition]
  end.

(** Modelled from the spec: [DeleteCondition] "removes the condition" of
    the given type, and does nothing when there is none. *)
Definition DeleteCondition (cndType : string) (l : Conditions) : Conditions :=
  match find cndType l with
  | Some (i, _) => delete i l
  | None => l
  end.

(** Number of conditions of a type. *)
Definition countType (cndType : string) (l : Conditions) : nat :=
  length (filter (fun c => Type_ c = cndType) l).

(** The invariant of a condition list built with [SetCondition]: at most
    one condition per type. *)
Definition uniqueTypes (l : Conditions) : Prop := NoDup (Type_ <$> l).

(** *** The migration objects *)

Record DirectVolumeMigrationStatus := {
  Conds : Conditions;            (* the embedded Conditions *)
  Phase : string;
  PhaseDescription : string;
  Itinerary_ : string;            (* Itinerary *)
  StartTimestamp : option Time
}.

Record DirectVolumeMigration := {
  Name : string;
  OwnerReferences : list OwnerReference;
  DVMStatus : DirectVolumeMigrationStatus   (* Status *)
}.

Record DirectImageMigration := {
  DIMName : string;                          (* Name *)
  DIMOwnerReferences : list OwnerReference   (* GetOwnerReferences() *)
}.

Record MigMigration := {
  MigrationName : string   (* Name *)
}.

Record MigPlan := {
  PlanName : string;   (* Name *)
  IsReady : bool       (* Status.IsReady() *)
}.

Record MigCluster := {
  ClusterName : string   (* Name *)
}.

Record PlanResources := {
  MigPlan_ : option MigPlan   (* MigPlan *)
}.

(** [&migapi.PlanResources{}]. *)
Definition emptyPlanResources : PlanResources := {| MigPlan_ := None |}.

(** *** Analytics *)

Record MigAnalyticPersistentVolume := {
  PVName : string;   (* Name *)
  SparseFilesFound : bool
}.

Record MigAnalyticNamespace := {
  Namespace : string;
  PersistentVolumes : list MigAnalyticPersistentVolume
}.

Record MigAnalytic := {
  AnalyzeExtendedPVCapacity : bool;      (* Spec.AnalyzeExtendedPVCapacity *)
  Namespaces : list MigAnalyticNamespace (* Status.Analytics.Namespaces *)
}.

(** *** Cluster configuration *)

Record ConfigMap := {
  Data : gmap string string
}.

(** Modelled from the spec: [EndpointType] is a string type whose accepted
    values are [Route], [ClusterIP] and [NodePort] (the config value
    ["NodePort"] is [NodePort]). *)
Abbreviation EndpointType := string (only parsing).
Definition Route : EndpointType := "Route".
Definition ClusterIP : EndpointType := "ClusterIP".
Definition NodePort : EndpointType := "NodePort".

(** Field updates of the migration object. *)
Definition withConds (f : Conditions -> Conditions)
    (direct : DirectVolumeMigration) : DirectVolumeMigration :=
  let s := DVMStatus direct in
  {| Name := Name direct;
     OwnerReferences := OwnerReferences direct;
     DVMStatus := {| Conds := f (Conds s);
                     Phase := Phase s;
                     PhaseDescription := PhaseDescription s;
                     Itinerary_ := Itinerary_ s;
                     StartTimestamp := StartTimestamp s |} |}.

Definition withPhase (phase description itinerary : string)
    (direct : DirectVolumeMigration) : DirectVolumeMigration :=
  let s := DVMStatus direct in
  {| Name := Name direct;
     OwnerReferences := OwnerReferences direct;
     DVMStatus := {| Conds := Conds s;
                     Phase := phase;
                     PhaseDescription := description;
                     Itinerary_ := itinerary;
                     StartTimestamp := StartTimestamp s |} |}.

Definition withStartTimestamp (t : option Time)
    (direct : DirectVolumeMigration) : DirectVolumeMigration :=
  let s := DVMStatus direct in
  {| Name := Name direct;
     OwnerReferences := OwnerReferences direct;
     DVMStatus := {| Conds := Conds s;
                     Phase := Phase s;
                     PhaseDescription := PhaseDescription s;
                     Itinerary_ := Itinerary_ s;
                     StartTimestamp := t |} |}.

End migapi.

(** ** Package [directvolumemigration]: migrate.go *)

Module directvolumemigration.

Import migapi.

Definition Duration := Z.

(** Modelled from the spec: the names the package gives to the terminal
    phases, the condition types, the condition categories and the condition
    status; they are declared in files of the package that are not among the
    sources. *)
Definition Completed : string := "Completed".
Definition MigrationFailed : string := "MigrationFailed".
Definition Running : string := "Running".
Definition Failed : string := "Failed".
Definition Succeeded : string := "Succeeded".
Definition Advisory : string := "Advisory".
Definition Critical : string := "Critical".
Definition Warn : string := "Warn".
Definition True_ : string := "True".

Abbreviation sparseFilePVCMap := (gmap string bool).

(** The itinerary of a task: its name and its phases in order. *)
Record Itinerary := {
  ItineraryName : string;   (* Name *)
  Steps : list string
}.

(** The fields of [Task] that migrate.go reads or writes. [Owner] is not a
    field here: it points to the migration object, which is threaded beside
    the task. [PlanResources] is a pointer; [SparseFileMap] is a map, nil or
    not. *)
Record Task := {
  TaskPhase : string;              (* Phase *)
  TaskPhaseDescription : string;   (* PhaseDescription *)
  PlanResources_ : option PlanResources;
  SparseFileMap : option sparseFilePVCMap;
  EndpointType_ : EndpointType;
  TaskItinerary : Itinerary;       (* Itinerary *)
  Requeue : Duration
}.

(** A client of a cluster ([compat.Client]), as a handle. *)
Definition Client := nat.

(** The reconciler [r] as migrate.go uses it: the reads it serves from the
    host cluster. [List_] is [r.List] for a [MigAnalyticList] under the given
    label selector; the other fields are the API methods that take [r] as
    their client, keyed by their receiver. A method that returns a pointer
    and an error is free to return both nil. *)
Record ReconcileDirectVolumeMigration := {
  GetMigrationForDVM : DirectVolumeMigration -> option MigMigration * option error;
  GetPlan : MigMigration -> option MigPlan * option error;
  GetRefResources : MigPlan -> option PlanResources * option error;
  List_ : gmap string string -> list MigAnalytic * option error;
  GetDestinationCluster : DirectVolumeMigration -> option MigCluster * option error;
  GetClient : MigCluster -> option Client * option error;
  GetClusterConfigMap : MigCluster -> option Client -> option ConfigMap * option error
}.

(** *** getDVMPlanResources (migrate.go, lines 108-143) *)

Definition getDVMPlanResources (r : ReconcileDirectVolumeMigration)
    (direct : DirectVolumeMigration)
    : outcome (option PlanResources * option error) :=
  if decide (0 < length (OwnerReferences direct))%nat then
    let planResources := Some emptyPlanResources in
    (* Ready *)
    let '(migration, err) := GetMigrationForDVM r direct in
    if err is Some _ then mret (planResources, liberr.Wrap err) else
    match migration with
    | None => mret (planResources, liberr.Wrap err)
    | Some migration =>
        let '(plan, err) := GetPlan r migration in
        if err is Some _ then mret (planResources, liberr.Wrap err) else
        plan ← deref plan;   (* plan.Status *)
        if negb (IsReady plan) then mret (planResources, liberr.Wrap err) else
        (* Resources *)
        let '(planResources, err) := GetRefResources r plan in
        if err is Some _ then mret (planResources, liberr.Wrap err) else
        mret (planResources, None)
    end
  else mret (Some emptyPlanResources, None).

(** *** getSparseFilePVCMap (migrate.go, lines 147-173) *)

(** [fmt.Sprintf("%s/%s", ns.Namespace, pv.Name)]. *)
Definition sparseKey (ns : MigAnalyticNamespace) (pv : MigAnalyticPersistentVolume)
    : string :=
  Namespace ns +:+ "/" +:+ PVName pv.

(** The innermost loop, over the volumes of a namespace. *)
Definition sparseVolumes (ns : MigAnalyticNamespace) (sparseFilesMap : sparseFilePVCMap)
    : sparseFilePVCMap :=
  foldl (fun m pv => if SparseFilesFound pv then <[sparseKey ns pv := true]> m else m)
        sparseFilesMap (PersistentVolumes ns).

(** The loop over the namespaces of an analytics record. *)
Definition sparseNamespaces (migAnalytic : MigAnalytic) (sparseFilesMap : sparseFilePVCMap)
    : sparseFilePVCMap :=
  foldl (fun m ns => sparseVolumes ns m) sparseFilesMap (Namespaces migAnalytic).

(** The outer loop, over the listed analytics records. *)
Definition sparseItems (items : list MigAnalytic) (sparseFilesMap : sparseFilePVCMap)
    : sparseFilePVCMap :=
  foldl (fun m migAnalytic =>
           if AnalyzeExtendedPVCapacity migAnalytic
           then sparseNamespaces migAnalytic m else m)
        sparseFilesMap items.

Definition getSparseFilePVCMap (r : ReconcileDirectVolumeMigration)
    (plan : option MigPlan) : option sparseFilePVCMap * option error :=
  let sparseFilesMap : sparseFilePVCMap := ∅ in
  match plan with
  | None => (Some sparseFilesMap, None)
  | Some plan =>
      let '(items, err) := List_ r {[ "migplan" := PlanName plan ]} in
      if err is Some _ then (None, liberr.Wrap err) else
      (Some (sparseItems items sparseFilesMap), None)
  end.

(** *** getEndpointType (migrate.go, lines 176-200) *)

Section EndpointType.

(** [migapi.RSYNC_ENDPOINT_TYPE], the config key; its value is declared
    outside the sources. *)
Variable RSYNC_ENDPOINT_TYPE : string.

(** A method of [MigCluster] reads its receiver, and [clusterConfig.Data]
    reads the config map: a nil cluster or a nil config map panics. *)
Definition getEndpointType (r : ReconcileDirectVolumeMigration)
    (direct : DirectVolumeMigration) : outcome (EndpointType * option error) :=
  let '(destCluster, err) := GetDestinationCluster r direct in
  if err is Some _ then mret ("", liberr.Wrap err) else
  destCluster ← deref destCluster;
  let '(destClient, err) := GetClient r destCluster in
  if err is Some _ then mret ("", liberr.Wrap err) else
  let '(clusterConfig, err) := GetClusterConfigMap r destCluster destClient in
  if err is Some _ then mret ("", liberr.Wrap err) else
  clusterConfig ← deref clusterConfig;
  match Data clusterConfig !! RSYNC_ENDPOINT_TYPE with
  | None => mret (Route, None)
  | Some endpointType =>
      if decide (endpointType = Route ∨ endpointType = ClusterIP
                 ∨ endpointType = NodePort)
      then mret (endpointType, None)
      else mret (Route, None)
  end.

End EndpointType.

(** *** migrate (migrate.go, lines 18-105) *)

Definition setPhase (phase : string) (task : Task) : Task :=
  {| TaskPhase := phase;
     TaskPhaseDescription := TaskPhaseDescription task;
     PlanResources_ := PlanResources_ task;
     SparseFileMap := SparseFileMap task;
     EndpointType_ := EndpointType_ task;
     TaskItinerary := TaskItinerary task;
     Requeue := Requeue task |}.

(** Modelled from the spec: the condition a failing task records on its
    owner is a durable [Failed] condition of the given category that carries
    the error text. *)
Definition failedCondition (phase category : string) (reasons : list string)
    : Condition :=
  {| Type_ := Failed;
     Status := True_;
     Reason := phase;
     Category := category;
     Message := String.concat "; " reasons;
     Durable := true |}.

(** Modelled from the spec: [Task.fail(nextPhase, category, reasons)]
    (declared in a file of the package that is not among the sources)
    "transitions to" [nextPhase] and "records a failure condition" of the
    given severity "with the error text" on the task's owner, "as a durable
    condition". The spec leaves the reason of the condition open; it is
    taken to be the phase the task failed in. *)
Definition fail (nextPhase category : string) (reasons : list string)
    (task : Task) (direct : DirectVolumeMigration)
    : Task * DirectVolumeMigration :=
  (setPhase nextPhase task,
   withConds (SetCondition (failedCondition (TaskPhase task) category reasons)) direct).

Section Engine.

(** The state of the clusters that the step executor acts on. *)
Context {World : Type}.

(** [Task.Run], the step executor: it runs the step of the task's phase. It
    may write to the task, to its owner [direct] (through [task.Owner]) and
    to the clusters, and returns an error or nil. Its body is outside the
    sources. *)
Variable Run : Task -> DirectVolumeMigration -> World ->
               Task * DirectVolumeMigration * World * option error.

(** [Itinerary.progressReport(phase)]: the step name, its number and the
    number of steps. *)
Variable progressReport : Itinerary -> string -> string * Z * Z.

(** [fmt.Sprintf(RunningMessage, n, total)]. *)
Variable RunningMessage : Z -> Z -> string.

(** Package-level values declared outside the sources. *)
Variable SucceededMessage : string.
Variable FatalPlanError : error.
Variables FastReQ NoReQ : Duration.
Variable RSYNC_ENDPOINT_TYPE : string.

(** [time.Now()]. *)
Variable now : Time.

Definition succeededCondition (phase : string) : Condition :=
  {| Type_ := Succeeded;
     Status := True_;
     Reason := phase;
     Category := Advisory;
     Message := SucceededMessage;
     Durable := true |}.

Definition runningCondition (step : string) (n total : Z) : Condition :=
  {| Type_ := Running;
     Status := True_;
     Reason := step;
     Category := Advisory;
     Message := RunningMessage n total;
     Durable := false |}.

(** Lines 54-69: what the error of the step executor does to the task and
    its owner. [None] is the early return on a conflict. *)
Definition runError (err : option error) (task : Task)
    (direct : DirectVolumeMigration) : option (Task * DirectVolumeMigration) :=
  match err with
  | Some err =>
      if k8serrors.IsConflict (errorutil.Unwrap err) then None
      else if errors.Is err FatalPlanError
      then Some (fail MigrationFailed Critical [Error err] task direct)
      else Some (fail MigrationFailed Warn [Error err] task direct)
  | None => Some (task, direct)
  end.

(** Lines 71-104: the result written to the status, and the requeue. *)
Definition result (task : Task) (direct : DirectVolumeMigration)
    : DirectVolumeMigration * Duration :=
  (* Result *)
  let direct := withPhase (TaskPhase task) (TaskPhaseDescription task)
                          (ItineraryName (TaskItinerary task)) direct in
  (* Completed *)
  if decide (TaskPhase task = Completed) then
    let direct := withConds (DeleteCondition Running) direct in
    let failed := FindCondition Failed (Conds (DVMStatus direct)) in
    let direct :=
      if failed is None
      then withConds (SetCondition (succeededCondition (TaskPhase task))) direct
      else direct in
    (direct, NoReQ)
  else
    (* Running *)
    let '(step, n, total) := progressReport (TaskItinerary task) (TaskPhase task) in
    let direct := withConds (SetCondition (runningCondition step n total)) direct in
    (direct, Requeue task).

(** The task [migrate] builds; the fields it does not name are zero. *)
Definition newTask (direct : DirectVolumeMigration)
    (planResources : option PlanResources)
    (sparseFilePVCMap : option sparseFilePVCMap) (endpointType : EndpointType)
    : Task :=
  {| TaskPhase := Phase (DVMStatus direct);
     TaskPhaseDescription := PhaseDescription (DVMStatus direct);
     PlanResources_ := planResources;
     SparseFileMap := sparseFilePVCMap;
     EndpointType_ := endpointType;
     TaskItinerary := {| ItineraryName := ""; Steps := [] |};
     Requeue := 0%Z |}.

(** Lines 35-39: the first reconcile stamps the start. *)
Definition started (direct : DirectVolumeMigration) : DirectVolumeMigration :=
  if StartTimestamp (DVMStatus direct) is None
  then withStartTimestamp (Some now) direct
  else direct.

(** [migrate] returns the requeue duration and the error; the migration
    object and the clusters, which it updates in place, are returned beside
    them. *)
Definition migrate (r : ReconcileDirectVolumeMigration)
    (direct : DirectVolumeMigration) (w : World)
    : outcome (DirectVolumeMigration * World * Duration * option error) :=
  '(planResources, err) ← getDVMPlanResources r direct;
  if err is Some _ then mret (direct, w, 0%Z, liberr.Wrap err) else
  resources ← deref planResources;   (* planResources.MigPlan *)
  let '(sparseFilePVCMap, err) := getSparseFilePVCMap r (MigPlan_ resources) in
  if err is Some _ then mret (direct, w, 0%Z, liberr.Wrap err) else
  '(endpointType, err) ← getEndpointType RSYNC_ENDPOINT_TYPE r direct;
  if err is Some _ then mret (direct, w, 0%Z, liberr.Wrap err) else
  (* Started *)
  let direct := started direct in
  (* Run *)
  let task := newTask direct planResources sparseFilePVCMap endpointType in
  let '(task, direct, w, err) := Run task direct w in
  match runError err task direct with
  | None => mret (direct, w, FastReQ, None)
  | Some (task, direct) =>
      let '(direct, requeue) := result task direct in
      mret (direct, w, requeue, None)
  end.

(** *** The ways a reconcile goes

    Predicates that name the paths through [migrate]; the theorems are
    stated with them. *)

(** The three resolvers succeed, with these results. *)
Definition resolves (r : ReconcileDirectVolumeMigration)
    (direct : DirectVolumeMigration) (resources : PlanResources)
    (sparseFilePVCMap : option sparseFilePVCMap) (endpointType : EndpointType)
    : Prop :=
  getDVMPlanResources r direct = Returns (Some resources, None)
  /\ getSparseFilePVCMap r (MigPlan_ resources) = (sparseFilePVCMap, None)
  /\ getEndpointType RSYNC_ENDPOINT_TYPE r direct = Returns (endpointType, None).

(** One of the three resolvers returns the error [e], the resolvers called
    before it having succeeded. *)
Inductive resolverFails (r : ReconcileDirectVolumeMigration)
    (direct : DirectVolumeMigration) (e : error) : Prop :=
| planResourcesFail planResources :
    getDVMPlanResources r direct = Returns (planResources, Some e) ->
    resolverFails r direct e
| sparseFileMapFails resources sparseFilePVCMap :
    getDVMPlanResources r direct = Returns (Some resources, None) ->
    getSparseFilePVCMap r (MigPlan_ resources) = (sparseFilePVCMap, Some e) ->
    resolverFails r direct e
| endpointTypeFails resources sparseFilePVCMap endpointType :
    getDVMPlanResources r direct = Returns (Some resources, None) ->
    getSparseFilePVCMap r (MigPlan_ resources) = (sparseFilePVCMap, None) ->
    getEndpointType RSYNC_ENDPOINT_TYPE r direct = Returns (endpointType, Some e) ->
    resolverFails r direct e.

(** The resolvers succeed and the step executor, run on the task that
    [migrate] builds, leaves the task [task'], the object [direct'], the
    clusters [w'] and the error [err]. *)
Definition runs (r : ReconcileDirectVolumeMigration)
    (direct : DirectVolumeMigration) (w : World)
    (task' : Task) (direct' : DirectVolumeMigration) (w' : World)
    (err : option error) : Prop :=
  exists resources sparseFilePVCMap endpointType,
    resolves r direct resources sparseFilePVCMap endpointType
    /\ Run (newTask (started direct) (Some resources) sparseFilePVCMap endpointType)
           (started direct) w
       = (task', direct', w', err).

(** A failure of a reconcile: an error of a resolver, or an error of the
    step executor that is no conflict. *)
Inductive failure : Type :=
| ResolverFailure (e : error)
| StepFailure (e : error).

Inductive reconcileFails (r : ReconcileDirectVolumeMigration)
    (direct : DirectVolumeMigration) (w : World) : failure -> Prop :=
| resolver_fails e :
    resolverFails r direct e ->
    reconcileFails r direct w (ResolverFailure e)
| step_fails task' direct' w' e :
    runs r direct w task' direct' w' (Some e) ->
    k8serrors.IsConflict (errorutil.Unwrap e) = false ->
    reconcileFails r direct w (StepFailure e).

End Engine.

End directvolumemigration.

(** ** Package [directimagemigration]: trace.go *)

Module directimagemigration.

Import migapi.

(** [opentracing.ChildOf(ctx)], the one option [initTracer] starts a span
    with. *)
Inductive StartSpanOption (SpanContext : Type) : Type :=
| ChildOf (ctx : SpanContext).
Arguments ChildOf {SpanContext} ctx.

Section Trace.

(** The types of opentracing: tracers, spans and span contexts. *)
Context {Tracer Span SpanContext : Type}.

(** [settings.Settings.JaegerOpts.Enabled]. *)
Variable Enabled : bool.

(** [migtrace.InitJaeger(service)]: the tracer; the closer, its second
    result, is discarded. *)
Variable InitJaeger : string -> Tracer.

(** [migtrace.GetSpanForMigrationUID(uid)]: the root span registered for a
    migration, nil when there is none. *)
Variable GetSpanForMigrationUID : string -> option Span.

(** [span.Context()] and [tracer.StartSpan(name, option)]. *)
Variable Context_ : Span -> SpanContext.
Variable StartSpan : Tracer -> string -> StartSpanOption SpanContext -> Span.

Record ReconcileDirectImageMigration := {
  tracer : option Tracer
}.

(** Lines 33-35: the tracer of the reconciler, set on first use. *)
Definition withTracer (r : ReconcileDirectImageMigration)
    : ReconcileDirectImageMigration :=
  if tracer r is None
  then {| tracer := Some (InitJaeger "DirectImageMigration") |}
  else r.

(** The tracer [r.tracer.StartSpan] is called on, after lines 33-35. *)
Definition theTracer (r : ReconcileDirectImageMigration) : Tracer :=
  match tracer r with
  | Some t => t
  | None => InitJaeger "DirectImageMigration"
  end.

(** Lines 38-46: the loop over the owner references; each reference of kind
    MigMigration overwrites [migrationSpan]. *)
Definition migrationSpanOf (ownerRefs : list OwnerReference) : option Span :=
  foldl (fun migrationSpan ownerRef =>
           if decide (Kind ownerRef ≠ "MigMigration") then migrationSpan
           else GetSpanForMigrationUID (UID ownerRef))
        None ownerRefs.

(** [initTracer] returns the span, nil or not; the reconciler, whose tracer
    it may set, is returned beside it. *)
Definition initTracer (r : ReconcileDirectImageMigration)
    (dim : DirectImageMigration)
    : ReconcileDirectImageMigration * option Span :=
  (* Exit if tracing disabled *)
  if negb Enabled then (r, None) else
  let r := withTracer r in
  (* Get overall migration span *)
  let migrationSpan := migrationSpanOf (DIMOwnerReferences dim) in
  match migrationSpan with
  | None => (r, None)
  | Some migrationSpan =>
      (* Get span for current reconcile *)
      let reconcileSpan :=
        StartSpan (theTracer r) ("dim-reconcile-" +:+ DIMName dim)
                  (ChildOf (Context_ migrationSpan)) in
      (r, Some reconcileSpan)
  end.

(** The owner the claim calls the owning MigMigration: the last owner
    reference of kind MigMigration. *)
Definition owningMigration (dim : DirectImageMigration) : option OwnerReference :=
  last (filter (fun ownerRef => Kind ownerRef = "MigMigration")
               (DIMOwnerReferences dim)).

End Trace.

End directimagemigration.

(** ** Measures of the inputs

    Quantities of the inputs that the properties of the resolvers are stated
    with. *)

(** The string holds no ["/"]. *)
Fixpoint noSlash (s : string) : bool :=
  match s with
  | EmptyString => true
  | String a s' => negb (Ascii.eqb a "/"%char) && noSlash s'
  end.

(** The number of volumes flagged [SparseFilesFound] in the namespaces of the
    records that asked for the extended analysis: the number of writes of the
    loops of [getSparseFilePVCMap]. *)
Definition flaggedVolumes (items : list migapi.MigAnalytic) : nat :=
  sum_list
    ((fun a =>
        if migapi.AnalyzeExtendedPVCapacity a
        then sum_list
               ((fun ns =>
                   length (filter (fun pv => migapi.SparseFilesFound pv = true)
                                  (migapi.PersistentVolumes ns)))
                  <$> migapi.Namespaces a)
        else 0) <$> items).

(** ** Concrete clusters, objects and step executors

    The inputs at which the examples below run the definitions. *)

Module fixtures.

Import migapi directvolumemigration.

Definition owner : OwnerReference :=
  {| Kind := "MigMigration"; UID := "uid-1"; OwnerName := "migration" |}.

Definition emptyStatus : DirectVolumeMigrationStatus :=
  {| Conds := []; Phase := ""; PhaseDescription := ""; Itinerary_ := "";
     StartTimestamp := None |}.

Definition running : Condition :=
  {| Type_ := "Running"; Status := "True"; Reason := "CreateRsyncTransferPods";
     Category := "Advisory"; Message := "Step: 3/5"; Durable := false |}.

(** The status of a task in the middle of its itinerary. *)
Definition midway : DirectVolumeMigrationStatus :=
  {| Conds := [running]; Phase := "CreateRsyncTransferPods";
     PhaseDescription := "Creating the transfer pods";
     Itinerary_ := "VolumeMigration"; StartTimestamp := Some 7%Z |}.

(** A task without owner, one owned by a migration, and an owned one that is
    midway. *)
Definition standalone : DirectVolumeMigration :=
  {| Name := "dvm"; OwnerReferences := []; DVMStatus := emptyStatus |}.

Definition owned : DirectVolumeMigration :=
  {| Name := "dvm"; OwnerReferences := [owner]; DVMStatus := emptyStatus |}.

Definition inProgress : DirectVolumeMigration :=
  {| Name := "dvm"; OwnerReferences := [owner]; DVMStatus := midway |}.

Definition migration : MigMigration := {| MigrationName := "migration" |}.
Definition readyPlan : MigPlan := {| PlanName := "plan"; IsReady := true |}.
Definition unreadyPlan : MigPlan := {| PlanName := "plan"; IsReady := false |}.

Definition notFound : error :=
  StatusError StatusReasonNotFound "migmigrations migration not found".
Definition conflict : error :=
  StatusError StatusReasonConflict "the object has been modified".
Definition forbidden : error :=
  StatusError StatusReasonForbidden "configmaps is forbidden".
Definition fatalPlanError : error := ErrorNew 0 "fatal plan error".
Definition podFailed : error := ErrorNew 1 "rsync pod failed".

(** Two analytics records: the first asked for the extended analysis, the
    second did not. *)
Definition analytics : list MigAnalytic :=
  [ {| AnalyzeExtendedPVCapacity := true;
       Namespaces :=
         [ {| Namespace := "ns1";
              PersistentVolumes :=
                [ {| PVName := "pvc-a"; SparseFilesFound := true |};
                  {| PVName := "pvc-b"; SparseFilesFound := false |} ] |} ] |};
    {| AnalyzeExtendedPVCapacity := false;
       Namespaces :=
         [ {| Namespace := "ns2";
              PersistentVolumes :=
                [ {| PVName := "pvc-c"; SparseFilesFound := true |} ] |} ] |} ].

Definition endpointKey : string := "RSYNC_ENDPOINT_TYPE".

(** A host cluster that answers the migration lookup with [lookup], the plan
    lookup with [plan], the analytics listing with [listed] and the config
    map lookup with [config]. *)
Definition host (lookup : option MigMigration * option error) (plan : MigPlan)
    (listed : list MigAnalytic * option error)
    (config : option ConfigMap * option error)
    : ReconcileDirectVolumeMigration :=
  {| GetMigrationForDVM := fun _ => lookup;
     GetPlan := fun _ => (Some plan, None);
     GetRefResources := fun p => (Some {| MigPlan_ := Some p |}, None);
     List_ := fun _ => listed;
     GetDestinationCluster := fun _ => (Some {| ClusterName := "dest" |}, None);
     GetClient := fun _ => (Some 0, None);
     GetClusterConfigMap := fun _ _ => config |}.

Definition configOf (data : gmap string string) : option ConfigMap * option error :=
  (Some {| Data := data |}, None).

(** The cluster where everything resolves; no endpoint type is configured. *)
Definition healthy : ReconcileDirectVolumeMigration :=
  host (Some migration, None) readyPlan (analytics, None) (configOf ∅).

(** The cluster whose plan is not ready; the cluster where the migration
    lookup yields neither a migration nor an error; the cluster where the
    migration lookup fails with NotFound. *)
Definition unready : ReconcileDirectVolumeMigration :=
  host (Some migration, None) unreadyPlan (analytics, None) (configOf ∅).

Definition orphaned : ReconcileDirectVolumeMigration :=
  host (None, None) readyPlan (analytics, None) (configOf ∅).

Definition lost : ReconcileDirectVolumeMigration :=
  host (None, Some notFound) readyPlan (analytics, None) (configOf ∅).

(** The same cluster with an endpoint type configured. *)
Definition configured (value : string) : ReconcileDirectVolumeMigration :=
  host (Some migration, None) readyPlan (analytics, None)
       (configOf {[ endpointKey := value ]}).

(** Step executors over a world that counts their runs. *)
Definition runsTo (phase : string) (requeue : Duration)
    (task : Task) (direct : DirectVolumeMigration) (w : nat)
    : Task * DirectVolumeMigration * nat * option error :=
  ({| TaskPhase := phase;
      TaskPhaseDescription := TaskPhaseDescription task;
      PlanResources_ := PlanResources_ task;
      SparseFileMap := SparseFileMap task;
      EndpointType_ := EndpointType_ task;
      TaskItinerary := {| ItineraryName := "VolumeMigration"; Steps := [phase] |};
      Requeue := requeue |},
   direct, S w, None).

Definition failsWith (e : error)
    (task : Task) (direct : DirectVolumeMigration) (w : nat)
    : Task * DirectVolumeMigration * nat * option error :=
  (task, direct, S w, Some e).

Definition report (itinerary : Itinerary) (phase : string) : string * Z * Z :=
  (phase, 1%Z, Z.of_nat (length (Steps itinerary))).

Definition runningMessage (n total : Z) : string := "Step: " +:+ pretty n +:+ "/" +:+ pretty total.

(** [migrate] on the fixtures: fast requeue is 100, no requeue is 0, the
    clock reads 42. *)
Definition succeededMessage : string :=
  "The migration has completed successfully.".

Definition reconcile
    (Run : Task -> DirectVolumeMigration -> nat ->
           Task * DirectVolumeMigration * nat * option error) :=
  migrate Run report runningMessage succeededMessage
          fatalPlanError 100%Z 0%Z endpointKey 42%Z.

(** A host cluster whose plan lookup yields neither a plan nor an error, one
    whose plan lookup fails, one whose resource lookup fails, and one whose
    config map lookup is forbidden. *)
Definition planless : ReconcileDirectVolumeMigration :=
  {| GetMigrationForDVM := fun _ => (Some migration, None);
     GetPlan := fun _ => (None, None);
     GetRefResources := fun p => (Some {| MigPlan_ := Some p |}, None);
     List_ := fun _ => (analytics, None);
     GetDestinationCluster := fun _ => (Some {| ClusterName := "dest" |}, None);
     GetClient := fun _ => (Some 0, None);
     GetClusterConfigMap := fun _ _ => configOf ∅ |}.

Definition unresolved : ReconcileDirectVolumeMigration :=
  {| GetMigrationForDVM := fun _ => (Some migration, None);
     GetPlan := fun _ => (Some readyPlan, None);
     GetRefResources := fun _ => (None, Some forbidden);
     List_ := fun _ => (analytics, None);
     GetDestinationCluster := fun _ => (Some {| ClusterName := "dest" |}, None);
     GetClient := fun _ => (Some 0, None);
     GetClusterConfigMap := fun _ _ => configOf ∅ |}.

Definition unconfigured : ReconcileDirectVolumeMigration :=
  host (Some migration, None) readyPlan (analytics, None) (None, Some forbidden).

Definition unlisted : ReconcileDirectVolumeMigration :=
  host (Some migration, None) readyPlan ([], Some forbidden) (configOf ∅).

(** A third analytics record, analysed, that flags a volume the first one
    flags too and one more. *)
Definition moreAnalytics : list MigAnalytic :=
  [ {| AnalyzeExtendedPVCapacity := true;
       Namespaces :=
         [ {| Namespace := "ns1";
              PersistentVolumes :=
                [ {| PVName := "pvc-a"; SparseFilesFound := true |} ] |};
           {| Namespace := "ns3";
              PersistentVolumes :=
                [ {| PVName := "pvc-d"; SparseFilesFound := true |} ] |} ] |} ].

Definition listing (items : list MigAnalytic) : ReconcileDirectVolumeMigration :=
  host (Some migration, None) readyPlan (items, None) (configOf ∅).

(** Tracing on the fixtures: a tracer is its service name, a span the chain
    of operation names down from its root, a span context the span itself.
    One migration, [uid-1], has a root span registered. *)
Definition registered (uid : string) : option (list string) :=
  if decide (uid = "uid-1") then Some ["migration-uid-1"] else None.

Definition startSpan (t : string) (operation : string)
    (parent : directimagemigration.StartSpanOption (list string)) : list string :=
  match parent with
  | directimagemigration.ChildOf ctx => operation :: ctx
  end.

Definition trace (enabled : bool) :=
  directimagemigration.initTracer enabled (fun service : string => service)
    registered (fun span : list string => span) startSpan.

Definition stranger : OwnerReference :=
  {| Kind := "MigMigration"; UID := "uid-2"; OwnerName := "other" |}.

Definition image (ownerRefs : list OwnerReference) : DirectImageMigration :=
  {| DIMName := "dim"; DIMOwnerReferences := ownerRefs |}.

End fixtures.

(** * Properties *)

(** ** Condition lists *)

Section ConditionFacts.

Import migapi.

Implicit Types (l : Conditions) (c x : Condition) (t : string).

Lemma SetCondition_nil c : SetCondition c [] = [c].
Proof. reflexivity. Qed.

Lemma SetCondition_cons c x l :
  SetCondition c (x :: l) =
  if decide (Type_ x = Type_ c) then c :: l else x :: SetCondition c l.
Proof.
  unfold SetCondition; simpl.
  destruct (decide (Type_ x = Type_ c)); [reflexivity|].
  destruct (find (Type_ c) l) as [[i y]|]; reflexivity.
Qed.

Lemma DeleteCondition_cons t x l :
  DeleteCondition t (x :: l) =
  if decide (Type_ x = t) then l else x :: DeleteCondition t l.
Proof.
  unfold DeleteCondition; simpl.
  destruct (decide (Type_ x = t)); [reflexivity|].
  destruct (find t l) as [[i y]|]; reflexivity.
Qed.

Lemma FindCondition_cons t x l :
  FindCondition t (x :: l) =
  if decide (Type_ x = t) then Some x else FindCondition t l.
Proof.
  unfold FindCondition; simpl.
  destruct (decide (Type_ x = t)); [reflexivity|].
  destruct (find t l) as [[i y]|]; reflexivity.
Qed.

Lemma FindCondition_Some t l c :
  FindCondition t l = Some c -> c ∈ l /\ Type_ c = t.
Proof.
  induction l as [|x l IH]; [discriminate|].
  rewrite FindCondition_cons.
  destruct (decide (Type_ x = t)) as [Hx|Hx].
  - intros [= ->]. split; [left | exact Hx].
  - intros H. destruct (IH H) as [Hin Ht]. split; [right; exact Hin | exact Ht].
Qed.

Lemma FindCondition_None t l :
  FindCondition t l = None <-> t ∉ (Type_ <$> l).
Proof.
  induction l as [|x l IH]; simpl.
  - split; [intros _; apply not_elem_of_nil | reflexivity].
  - rewrite FindCondition_cons, not_elem_of_cons.
    destruct (decide (Type_ x = t)) as [Hx|Hx].
    + split; [discriminate | intros [H _]; congruence].
    + rewrite IH. split; [intros H; split; [congruence | exact H] | intros [_ H]; exact H].
Qed.

Lemma FindCondition_SetCondition_eq c l :
  FindCondition (Type_ c) (SetCondition c l) = Some c.
Proof.
  induction l as [|x l IH].
  - rewrite SetCondition_nil, FindCondition_cons. by rewrite decide_True.
  - rewrite SetCondition_cons.
    destruct (decide (Type_ x = Type_ c)) as [Hx|Hx];
      rewrite FindCondition_cons.
    + by rewrite decide_True.
    + by rewrite decide_False.
Qed.

Lemma FindCondition_SetCondition_ne t c l :
  Type_ c ≠ t -> FindCondition t (SetCondition c l) = FindCondition t l.
Proof.
  intros Hne. induction l as [|x l IH].
  - rewrite SetCondition_nil, FindCondition_cons. by rewrite decide_False.
  - rewrite SetCondition_cons.
    destruct (decide (Type_ x = Type_ c)) as [Hx|Hx];
      rewrite !FindCondition_cons.
    + rewrite decide_False by exact Hne. rewrite decide_False by congruence.
      reflexivity.
    + destruct (decide (Type_ x = t)); [reflexivity | exact IH].
Qed.

Lemma FindCondition_DeleteCondition_ne t t' l :
  t' ≠ t -> FindCondition t (DeleteCondition t' l) = FindCondition t l.
Proof.
  intros Hne. induction l as [|x l IH]; [reflexivity|].
  rewrite DeleteCondition_cons.
  destruct (decide (Type_ x = t')) as [Hx|Hx]; rewrite ?FindCondition_cons.
  - rewrite decide_False by congruence. reflexivity.
  - destruct (decide (Type_ x = t)); [reflexivity | exact IH].
Qed.

Lemma FindCondition_DeleteCondition_eq t l :
  uniqueTypes l -> FindCondition t (DeleteCondition t l) = None.
Proof.
  unfold uniqueTypes. induction l as [|x l IH]; [reflexivity|].
  rewrite fmap_cons, NoDup_cons. intros [Hx Hl].
  rewrite DeleteCondition_cons.
  destruct (decide (Type_ x = t)) as [Ht|Ht].
  - subst t. by apply FindCondition_None.
  - rewrite FindCondition_cons, decide_False by exact Ht. by apply IH.
Qed.

Lemma countType_cons t x l :
  countType t (x :: l) =
  if decide (Type_ x = t) then S (countType t l) else countType t l.
Proof.
  unfold countType. rewrite filter_cons.
  destruct (decide (Type_ x = t)); reflexivity.
Qed.

Lemma countType_None t l : FindCondition t l = None -> countType t l = 0.
Proof.
  induction l as [|x l IH]; [reflexivity|].
  rewrite FindCondition_cons, countType_cons.
  destruct (decide (Type_ x = t)); [discriminate | exact IH].
Qed.

(** Setting a condition never leaves two of its type where there was at
    most one. *)
Lemma countType_SetCondition_eq c l :
  countType (Type_ c) (SetCondition c l) = Nat.max 1 (countType (Type_ c) l).
Proof.
  induction l as [|x l IH].
  - rewrite SetCondition_nil, countType_cons. by rewrite decide_True.
  - rewrite SetCondition_cons.
    destruct (decide (Type_ x = Type_ c)) as [Hx|Hx];
      rewrite !countType_cons.
    + rewrite decide_True by reflexivity. rewrite decide_True by exact Hx. lia.
    + rewrite !decide_False by exact Hx. exact IH.
Qed.

Lemma countType_SetCondition_ne t c l :
  Type_ c ≠ t -> countType t (SetCondition c l) = countType t l.
Proof.
  intros Hne. induction l as [|x l IH].
  - rewrite SetCondition_nil, countType_cons. by rewrite decide_False.
  - rewrite SetCondition_cons.
    destruct (decide (Type_ x = Type_ c)) as [Hx|Hx];
      rewrite !countType_cons.
    + rewrite decide_False by exact Hne. rewrite decide_False by congruence.
      reflexivity.
    + destruct (decide (Type_ x = t)); [f_equal|]; exact IH.
Qed.

Lemma countType_DeleteCondition_ne t t' l :
  t' ≠ t -> countType t (DeleteCondition t' l) = countType t l.
Proof.
  intros Hne. induction l as [|x l IH]; [reflexivity|].
  rewrite DeleteCondition_cons.
  destruct (decide (Type_ x = t')) as [Hx|Hx]; rewrite ?countType_cons.
  - rewrite decide_False by congruence. reflexivity.
  - destruct (decide (Type_ x = t)); [f_equal|]; exact IH.
Qed.

Lemma countType_unique t l : uniqueTypes l -> countType t l <= 1.
Proof.
  unfold uniqueTypes. induction l as [|x l IH]; [intros _; change (0 <= 1); lia|].
  rewrite fmap_cons, NoDup_cons. intros [Hx Hl].
  rewrite countType_cons. destruct (decide (Type_ x = t)) as [Ht|Ht].
  - subst t. apply FindCondition_None in Hx.
    rewrite (countType_None _ _ Hx). lia.
  - by apply IH.
Qed.

End ConditionFacts.

(** ** The plan resource resolver *)

Section PlanResourcesFacts.

Import migapi directvolumemigration.

Implicit Types (r : ReconcileDirectVolumeMigration) (direct : DirectVolumeMigration).

Lemma Wrap_nil : liberr.Wrap None = None.
Proof. reflexivity. Qed.

Lemma Wrap_is_Some e : is_Some (liberr.Wrap (Some e)).
Proof. destruct e; simpl; eauto. Qed.


(** X1: a task without owner reference resolves to the empty resource set
    and no error, whatever the cluster answers. *)
Theorem getDVMPlanResources_standalone r direct :
  OwnerReferences direct = [] ->
  getDVMPlanResources r direct = Returns (Some emptyPlanResources, None).
Proof. intros H. unfold getDVMPlanResources. rewrite H. reflexivity. Qed.

Lemma getDVMPlanResources_standalone_witness :
  getDVMPlanResources fixtures.lost fixtures.standalone
  = Returns (Some emptyPlanResources, None).
Proof. apply getDVMPlanResources_standalone. reflexivity. Defined.



(** C5, as the code has it: when the parent plan is not ready, line 132
    returns [liberr.Wrap(err)] with the [err] of the plan lookup, which is
    nil there; the resolver returns the empty resource set and no error. *)
Theorem getDVMPlanResources_plan_not_ready r direct migration plan :
  OwnerReferences direct ≠ [] ->
  GetMigrationForDVM r direct = (Some migration, None) ->
  GetPlan r migration = (Some plan, None) ->
  IsReady plan = false ->
  getDVMPlanResources r direct = Returns (Some emptyPlanResources, None).
Proof.
  intros Hown Hget Hplan Hready. unfold getDVMPlanResources.
  destruct (OwnerReferences direct) as [|o os]; [done|]. simpl.
  rewrite Hget, Hplan. simpl. rewrite Hready. reflexivity.
Qed.

Lemma getDVMPlanResources_plan_not_ready_witness :
  getDVMPlanResources fixtures.unready fixtures.owned
  = Returns (Some emptyPlanResources, None).
Proof.
  apply (getDVMPlanResources_plan_not_ready _ _ fixtures.migration
           fixtures.unreadyPlan); [discriminate | reflexivity..].
Defined.

(** C6, as the code has it: when the migration lookup yields no migration
    and no error, line 123 returns [liberr.Wrap(err)] with that nil [err];
    the resolver returns the empty resource set and no error. *)
Theorem getDVMPlanResources_migration_absent r direct :
  OwnerReferences direct ≠ [] ->
  GetMigrationForDVM r direct = (None, None) ->
  getDVMPlanResources r direct = Returns (Some emptyPlanResources, None).
Proof.
  intros Hown Hget. unfold getDVMPlanResources.
  destruct (OwnerReferences direct) as [|o os]; [done|]. simpl.
  rewrite Hget. reflexivity.
Qed.

Lemma getDVMPlanResources_migration_absent_witness :
  getDVMPlanResources fixtures.orphaned fixtures.owned
  = Returns (Some emptyPlanResources, None).
Proof.
  apply getDVMPlanResources_migration_absent; [discriminate | reflexivity].
Defined.

End PlanResourcesFacts.

(** ** The sparse-file advisory *)

Section SparseFileFacts.

Import migapi directvolumemigration.

Implicit Types (m : gmap string bool) (k : string).

(** The loops only ever write [true]: after a loop a key holds [true] when
    the loop met a flagged volume with that key, and what it held before
    otherwise. *)
Lemma sparseVolumes_lookup ns m k :
  let met := exists pv, pv ∈ PersistentVolumes ns
                        /\ SparseFilesFound pv = true /\ k = sparseKey ns pv in
  (met /\ sparseVolumes ns m !! k = Some true)
  \/ (~ met /\ sparseVolumes ns m !! k = m !! k).
Proof.
  unfold sparseVolumes. revert m.
  induction (PersistentVolumes ns) as [|pv pvs IH]; intros m; simpl.
  - right. split; [|reflexivity].
    intros (pv & Hin & _). by apply elem_of_nil in Hin.
  - destruct (IH (if SparseFilesFound pv then <[sparseKey ns pv:=true]> m else m))
      as [[(pv0 & Hin & H) ->]|[Hno ->]]; clear IH.
    { left. split; [|reflexivity]. exists pv0. split; [by right | exact H]. }
    destruct (SparseFilesFound pv) eqn:Hs.
    + destruct (decide (k = sparseKey ns pv)) as [->|Hk].
      * left. rewrite lookup_insert_eq. split; [|reflexivity].
        exists pv. split; [by left | done].
      * right. rewrite lookup_insert_ne by done. split; [|reflexivity].
        intros (pv0 & Hin & Hs0 & Hk0). apply elem_of_cons in Hin as [->|Hin];
          [done | apply Hno; eauto].
    + right. split; [|reflexivity].
      intros (pv0 & Hin & Hs0 & Hk0). apply elem_of_cons in Hin as [->|Hin];
        [congruence | apply Hno; eauto].
Qed.

Lemma sparseNamespaces_lookup a m k :
  let met := exists ns pv, ns ∈ Namespaces a /\ pv ∈ PersistentVolumes ns
                           /\ SparseFilesFound pv = true /\ k = sparseKey ns pv in
  (met /\ sparseNamespaces a m !! k = Some true)
  \/ (~ met /\ sparseNamespaces a m !! k = m !! k).
Proof.
  unfold sparseNamespaces. revert m.
  induction (Namespaces a) as [|ns nss IH]; intros m; simpl.
  - right. split; [|reflexivity].
    intros (ns & pv & Hin & _). by apply elem_of_nil in Hin.
  - destruct (IH (sparseVolumes ns m)) as [[(ns0 & pv & Hin & H) ->]|[Hno ->]];
      clear IH.
    { left. split; [|reflexivity]. exists ns0, pv. split; [by right | exact H]. }
    destruct (sparseVolumes_lookup ns m k) as [[(pv & H) ->]|[Hno' ->]].
    + left. split; [|reflexivity]. exists ns, pv. split; [by left | exact H].
    + right. split; [|reflexivity].
      intros (ns0 & pv & Hin & Hpv). apply elem_of_cons in Hin as [->|Hin];
        [apply Hno'; eauto | apply Hno; eauto 10].
Qed.

Lemma sparseItems_lookup items m k :
  let met := exists a ns pv, a ∈ items /\ AnalyzeExtendedPVCapacity a = true
                             /\ ns ∈ Namespaces a /\ pv ∈ PersistentVolumes ns
                             /\ SparseFilesFound pv = true /\ k = sparseKey ns pv in
  (met /\ sparseItems items m !! k = Some true)
  \/ (~ met /\ sparseItems items m !! k = m !! k).
Proof.
  unfold sparseItems. revert m.
  induction items as [|a items IH]; intros m; simpl.
  - right. split; [|reflexivity].
    intros (a & ns & pv & Hin & _). by apply elem_of_nil in Hin.
  - destruct (IH (if AnalyzeExtendedPVCapacity a then sparseNamespaces a m else m))
      as [[(a0 & ns & pv & Hin & H) ->]|[Hno ->]]; clear IH.
    { left. split; [|reflexivity]. exists a0, ns, pv. split; [by right | exact H]. }
    destruct (AnalyzeExtendedPVCapacity a) eqn:Ha.
    + destruct (sparseNamespaces_lookup a m k) as [[(ns & pv & H) ->]|[Hno' ->]].
      * left. split; [|reflexivity].
        exists a, ns, pv. split; [by left | split; [exact Ha | exact H]].
      * right. split; [|reflexivity].
        intros (a0 & ns & pv & Hin & Ha0 & Hns).
        apply elem_of_cons in Hin as [->|Hin];
          [apply Hno'; eauto 10 | apply Hno; eauto 12].
    + right. split; [|reflexivity].
      intros (a0 & ns & pv & Hin & Ha0 & Hns).
      apply elem_of_cons in Hin as [->|Hin];
        [congruence | apply Hno; eauto 12].
Qed.

(** Records that did not ask for the extended analysis add nothing. *)
Lemma sparseItems_filter items m :
  sparseItems (filter (fun a => AnalyzeExtendedPVCapacity a = true) items) m
  = sparseItems items m.
Proof.
  unfold sparseItems. revert m. induction items as [|a items IH]; intros m.
  - reflexivity.
  - rewrite filter_cons. destruct (AnalyzeExtendedPVCapacity a) eqn:Ha.
    + rewrite decide_True by reflexivity. simpl. rewrite Ha. apply IH.
    + rewrite decide_False by discriminate. simpl. rewrite Ha. apply IH.
Qed.

(** C7: for a nil plan [getSparseFilePVCMap] returns an empty mapping and no
    error. For a plan whose analytics are listed without error it returns a
    mapping in which a key holds [true] exactly when it is the key
    "namespace/volume" of a volume flagged [SparseFilesFound] in a namespace
    of a listed record with [AnalyzeExtendedPVCapacity]; no key holds
    [false]; and the records without [AnalyzeExtendedPVCapacity] contribute
    nothing: the mapping is the one computed from the other records alone,
    and it is empty when no record has the flag. *)
Theorem getSparseFilePVCMap_spec (r : ReconcileDirectVolumeMigration) :
  getSparseFilePVCMap r None = (Some ∅, None)
  /\ forall plan items,
       List_ r {[ "migplan" := PlanName plan ]} = (items, None) ->
       exists m : gmap string bool,
         getSparseFilePVCMap r (Some plan) = (Some m, None)
         /\ (forall k,
               m !! k = Some true <->
               exists a ns pv,
                 a ∈ items /\ AnalyzeExtendedPVCapacity a = true
                 /\ ns ∈ Namespaces a /\ pv ∈ PersistentVolumes ns
                 /\ SparseFilesFound pv = true
                 /\ k = Namespace ns +:+ "/" +:+ PVName pv)
         /\ (forall k, m !! k ≠ Some false)
         /\ m = sparseItems
                  (filter (fun a => AnalyzeExtendedPVCapacity a = true) items) ∅
         /\ ((forall a, a ∈ items -> AnalyzeExtendedPVCapacity a = false) ->
             m = ∅).
Proof.
  split; [reflexivity|].
  intros plan items Hlist. exists (sparseItems items ∅).
  split; [unfold getSparseFilePVCMap; rewrite Hlist; reflexivity|].
  split; [|split; [|split]].
  - intros k. destruct (sparseItems_lookup items ∅ k) as [[Hmet ->]|[Hno ->]].
    + split; [intros _; exact Hmet | reflexivity].
    + rewrite lookup_empty. split; [discriminate | intros H; destruct (Hno H)].
  - intros k. destruct (sparseItems_lookup items ∅ k) as [[_ ->]|[_ ->]];
      [discriminate | rewrite lookup_empty; discriminate].
  - symmetry. apply sparseItems_filter.
  - intros Hall. apply map_eq. intros k.
    destruct (sparseItems_lookup items ∅ k) as [[Hmet _]|[_ ->]]; [|reflexivity].
    destruct Hmet as (a & ns & pv & Hin & Ha & _).
    rewrite (Hall a Hin) in Ha. discriminate.
Qed.

(** On the fixtures: the flagged volume of the analysed record is in the
    mapping, the flagged volume of the other record is not. *)
Lemma getSparseFilePVCMap_spec_witness :
  exists m : gmap string bool,
    getSparseFilePVCMap fixtures.healthy (Some fixtures.readyPlan) = (Some m, None)
    /\ m !! "ns1/pvc-a" = Some true
    /\ m = sparseItems
             (filter (fun a => AnalyzeExtendedPVCapacity a = true)
                     fixtures.analytics) ∅.
Proof.
  destruct (getSparseFilePVCMap_spec fixtures.healthy) as [_ H].
  destruct (H fixtures.readyPlan fixtures.analytics eq_refl)
    as (m & Hm & Hiff & _ & Hfilter & _).
  exists m. split; [exact Hm|]. split; [|exact Hfilter].
  apply Hiff.
  eexists _, _, _. split; [left|]. split; [reflexivity|].
  split; [left|]. split; [left|]. split; reflexivity.
Defined.

(** X3: the mapping does not depend on the order in which the analytics
    records are listed. *)
Theorem getSparseFilePVCMap_order (r r' : ReconcileDirectVolumeMigration)
    (plan : MigPlan) (items items' : list MigAnalytic) :
  List_ r {[ "migplan" := PlanName plan ]} = (items, None) ->
  List_ r' {[ "migplan" := PlanName plan ]} = (items', None) ->
  items ≡ₚ items' ->
  getSparseFilePVCMap r (Some plan) = getSparseFilePVCMap r' (Some plan).
Proof.
  intros Hl Hl' Hperm. unfold getSparseFilePVCMap. rewrite Hl, Hl'.
  do 2 f_equal. apply map_eq. intros k.
  destruct (sparseItems_lookup items ∅ k) as [[Hmet ->]|[Hno ->]];
    destruct (sparseItems_lookup items' ∅ k) as [[Hmet' ->]|[Hno' ->]];
    try reflexivity; exfalso.
  - apply Hno'. destruct Hmet as (a & ns & pv & Hin & H).
    exists a, ns, pv. split; [by rewrite <- Hperm | exact H].
  - apply Hno. destruct Hmet' as (a & ns & pv & Hin & H).
    exists a, ns, pv. split; [by rewrite Hperm | exact H].
Qed.

Lemma getSparseFilePVCMap_order_witness :
  getSparseFilePVCMap fixtures.healthy (Some fixtures.readyPlan)
  = getSparseFilePVCMap
      (fixtures.host (Some fixtures.migration, None) fixtures.readyPlan
                     (reverse fixtures.analytics, None) (fixtures.configOf ∅))
      (Some fixtures.readyPlan).
Proof.
  apply (getSparseFilePVCMap_order _ _ _ fixtures.analytics
           (reverse fixtures.analytics)); [reflexivity | reflexivity |].
  symmetry. apply reverse_Permutation.
Defined.

End SparseFileFacts.

(** ** The endpoint resolver *)

Section EndpointFacts.

Import migapi directvolumemigration.

(** C8: when the destination cluster, its client and its config map
    resolve, [getEndpointType] returns [Route] and no error if the config key
    is absent, the configured value and no error if that is [Route],
    [ClusterIP] or [NodePort], and [Route] and no error for any other
    value. *)
Theorem getEndpointType_spec (RSYNC_ENDPOINT_TYPE : string)
    (r : ReconcileDirectVolumeMigration) (direct : DirectVolumeMigration)
    (destCluster : MigCluster) (destClient : option Client)
    (clusterConfig : ConfigMap) :
  GetDestinationCluster r direct = (Some destCluster, None) ->
  GetClient r destCluster = (destClient, None) ->
  GetClusterConfigMap r destCluster destClient = (Some clusterConfig, None) ->
  (Data clusterConfig !! RSYNC_ENDPOINT_TYPE = None ->
   getEndpointType RSYNC_ENDPOINT_TYPE r direct = Returns (Route, None))
  /\ (forall v,
        Data clusterConfig !! RSYNC_ENDPOINT_TYPE = Some v ->
        v ∈ [Route; ClusterIP; NodePort] ->
        getEndpointType RSYNC_ENDPOINT_TYPE r direct = Returns (v, None))
  /\ (forall v,
        Data clusterConfig !! RSYNC_ENDPOINT_TYPE = Some v ->
        v ∉ [Route; ClusterIP; NodePort] ->
        getEndpointType RSYNC_ENDPOINT_TYPE r direct = Returns (Route, None)).
Proof.
  intros Hcluster Hclient Hconfig.
  unfold getEndpointType. rewrite Hcluster.
  cbn [deref mbind outcome_bind]. rewrite Hclient, Hconfig.
  cbn [deref mbind outcome_bind].
  split; [|split].
  - intros ->. reflexivity.
  - intros v -> Hv. rewrite decide_True; [reflexivity|].
    rewrite !elem_of_cons in Hv. destruct Hv as [?|[?|[?|Hv]]]; eauto.
    by apply elem_of_nil in Hv.
  - intros v -> Hv. rewrite decide_False; [reflexivity|].
    intros H. apply Hv. rewrite !elem_of_cons. tauto.
Qed.

(** The spec's examples: no key gives [Route], ["NodePort"] gives
    [NodePort], ["bogus"] gives [Route]. *)
Lemma getEndpointType_spec_witness :
  getEndpointType fixtures.endpointKey fixtures.healthy fixtures.owned
  = Returns (Route, None)
  /\ getEndpointType fixtures.endpointKey (fixtures.configured "NodePort")
                     fixtures.owned
     = Returns (NodePort, None)
  /\ getEndpointType fixtures.endpointKey (fixtures.configured "bogus")
                     fixtures.owned
     = Returns (Route, None).
Proof.
  split; [|split].
  - apply (proj1 (getEndpointType_spec fixtures.endpointKey fixtures.healthy
                    fixtures.owned _ _ _ eq_refl eq_refl eq_refl)).
    reflexivity.
  - apply (proj1 (proj2 (getEndpointType_spec fixtures.endpointKey
                           (fixtures.configured "NodePort")
                           fixtures.owned _ _ _ eq_refl eq_refl eq_refl))).
    + reflexivity.
    + rewrite !elem_of_cons. right; right; left; reflexivity.
  - apply (proj2 (proj2 (getEndpointType_spec fixtures.endpointKey
                           (fixtures.configured "bogus")
                           fixtures.owned _ _ _ eq_refl eq_refl eq_refl))
             "bogus").
    + reflexivity.
    + rewrite !elem_of_cons, elem_of_nil. intros [H|[H|[H|[]]]]; discriminate H.
Defined.

End EndpointFacts.

(** ** The phase execution engine *)

Section EngineFacts.

Import migapi directvolumemigration.

Context {World : Type}.
Context (Run : Task -> DirectVolumeMigration -> World ->
               Task * DirectVolumeMigration * World * option error).
Context (progressReport : Itinerary -> string -> string * Z * Z).
Context (RunningMessage : Z -> Z -> string).
Context (SucceededMessage : string) (FatalPlanError : error).
Context (FastReQ NoReQ : Duration) (RSYNC_ENDPOINT_TYPE : string) (now : Time).

Implicit Types (r : ReconcileDirectVolumeMigration).
Implicit Types (direct : DirectVolumeMigration) (w : World) (task : Task).

Local Abbreviation migrate :=
  (migrate Run progressReport RunningMessage SucceededMessage FatalPlanError
           FastReQ NoReQ RSYNC_ENDPOINT_TYPE now).
Local Abbreviation runs := (runs Run RSYNC_ENDPOINT_TYPE now).
Local Abbreviation result :=
  (result progressReport RunningMessage SucceededMessage NoReQ).
Local Abbreviation resolverFails := (resolverFails RSYNC_ENDPOINT_TYPE).

(** [migrate] on the path where a resolver fails (lines 20-33). *)
Lemma migrate_resolverFails r direct w e :
  resolverFails r direct e ->
  migrate r direct w = Returns (direct, w, 0%Z, liberr.Wrap (Some e)).
Proof.
  intros [pr H1|pr sm H1 H2|pr sm et H1 H2 H3];
    unfold directvolumemigration.migrate;
    rewrite H1; cbn [mbind outcome_bind deref]; [reflexivity| |];
    rewrite H2; [reflexivity|];
    rewrite H3; reflexivity.
Qed.

(** [migrate] on the path where the step executor runs (lines 35-104). *)
Lemma migrate_runs r direct w task' direct' w' err :
  runs r direct w task' direct' w' err ->
  migrate r direct w =
  match runError FatalPlanError err task' direct' with
  | None => Returns (direct', w', FastReQ, None)
  | Some (task2, direct2) =>
      Returns ((result task2 direct2).1, w', (result task2 direct2).2, None)
  end.
Proof.
  intros (pr & sm & et & (H1 & H2 & H3) & Hrun).
  unfold directvolumemigration.migrate.
  rewrite H1; cbn [mbind outcome_bind deref]. rewrite H2, H3.
  cbn [mbind outcome_bind]. rewrite Hrun.
  destruct (runError FatalPlanError err task' direct') as [[task2 direct2]|];
    [|reflexivity].
  destruct (result task2 direct2); reflexivity.
Qed.

(** The object handed to the step executor is [direct] with its start
    stamped: status phase, description, itinerary and conditions are
    those of [direct]. *)
Lemma started_status direct :
  let s := DVMStatus direct in
  let s' := DVMStatus (started now direct) in
  Conds s' = Conds s /\ Phase s' = Phase s
  /\ PhaseDescription s' = PhaseDescription s /\ Itinerary_ s' = Itinerary_ s.
Proof.
  unfold started. destruct (StartTimestamp (DVMStatus direct)); simpl; done.
Qed.

(** A failing task is in the [MigrationFailed] phase: a task that ends in
    [Completed] met no error. *)
Lemma runError_Completed err task direct task2 direct2 :
  runError FatalPlanError err task direct = Some (task2, direct2) ->
  TaskPhase task2 = Completed ->
  err = None /\ task2 = task /\ direct2 = direct.
Proof.
  unfold runError. destruct err as [e|].
  - destruct (k8serrors.IsConflict _); [discriminate|].
    destruct (errors.Is e FatalPlanError); intros [= <- <-]; discriminate.
  - intros [= <- <-]. done.
Qed.

Lemma result_Completed task direct :
  TaskPhase task = Completed ->
  result task direct =
  (let direct :=
     withConds (DeleteCondition Running)
       (withPhase Completed (TaskPhaseDescription task)
                  (ItineraryName (TaskItinerary task)) direct) in
   if FindCondition Failed (Conds (DVMStatus direct)) is None
   then withConds (SetCondition (succeededCondition SucceededMessage Completed))
                  direct
   else direct,
   NoReQ).
Proof.
  intros H. unfold directvolumemigration.result. rewrite H.
  rewrite decide_True by reflexivity. reflexivity.
Qed.

Lemma result_not_Completed task direct :
  TaskPhase task ≠ Completed ->
  exists step n total,
    progressReport (TaskItinerary task) (TaskPhase task) = (step, n, total)
    /\ result task direct =
       (withConds (SetCondition (runningCondition RunningMessage step n total))
          (withPhase (TaskPhase task) (TaskPhaseDescription task)
                     (ItineraryName (TaskItinerary task)) direct),
        Requeue task).
Proof.
  intros H. unfold directvolumemigration.result.
  rewrite decide_False by exact H.
  destruct (progressReport _ _) as [[step n] total]. eauto.
Qed.

(** C1: when the step executor returns an error that is a conflict,
    [migrate] returns [FastReQ] and a nil error, and the object is the one
    the executor left: [migrate] itself writes no phase, no description and
    no condition after the executor returned. Hence, for an executor that
    left the phase, the description and the [Failed] condition of its owner
    as they were, the status phase and the phase description are unchanged
    and no [Failed] condition is added. *)
Theorem migrate_conflict r direct w task' direct' w' err :
  runs r direct w task' direct' w' (Some err) ->
  k8serrors.IsConflict (errorutil.Unwrap err) = true ->
  Phase (DVMStatus direct') = Phase (DVMStatus (started now direct)) ->
  PhaseDescription (DVMStatus direct')
  = PhaseDescription (DVMStatus (started now direct)) ->
  FindCondition Failed (Conds (DVMStatus direct'))
  = FindCondition Failed (Conds (DVMStatus (started now direct))) ->
  exists final,
    migrate r direct w = Returns (final, w', FastReQ, None)
    /\ final = direct'
    /\ Phase (DVMStatus final) = Phase (DVMStatus direct)
    /\ PhaseDescription (DVMStatus final) = PhaseDescription (DVMStatus direct)
    /\ FindCondition Failed (Conds (DVMStatus final))
       = FindCondition Failed (Conds (DVMStatus direct)).
Proof.
  intros Hruns Hconflict Hphase Hdescription Hfailed.
  exists direct'. rewrite (migrate_runs _ _ _ _ _ _ _ Hruns).
  unfold runError. rewrite Hconflict.
  destruct (started_status direct) as (Hc & Hp & Hd & _).
  rewrite Hphase, Hdescription, Hfailed, Hc, Hp, Hd. done.
Qed.

(** C2: when the reconcile ends with the task in the [Completed] phase,
    [migrate] returns [NoReQ] and a nil error and the status phase is
    [Completed]; the [Running] condition is gone; if the object holds no
    [Failed] condition, its [Succeeded] condition is the one with status
    [True], category [Advisory], the fixed message and [Durable], and it is
    the only one of its type; if the object holds a [Failed] condition, the
    conditions are those the executor left less [Running]: no [Succeeded]
    condition is added. Such a reconcile met no error, so the object the
    conditions are read from is the one the executor left; it is taken to
    hold at most one condition per type. *)
Theorem migrate_completed r direct w task' direct' w' err task2 direct2 :
  runs r direct w task' direct' w' err ->
  runError FatalPlanError err task' direct' = Some (task2, direct2) ->
  TaskPhase task2 = Completed ->
  uniqueTypes (Conds (DVMStatus direct2)) ->
  exists final,
    migrate r direct w = Returns (final, w', NoReQ, None)
    /\ (err = None /\ direct2 = direct')
    /\ Phase (DVMStatus final) = Completed
    /\ FindCondition Running (Conds (DVMStatus final)) = None
    /\ (FindCondition Failed (Conds (DVMStatus direct2)) = None ->
        FindCondition Succeeded (Conds (DVMStatus final))
        = Some {| Type_ := Succeeded; Status := True_; Reason := Completed;
                  Category := Advisory; Message := SucceededMessage;
                  Durable := true |}
        /\ countType Succeeded (Conds (DVMStatus final)) = 1)
    /\ (FindCondition Failed (Conds (DVMStatus direct2)) ≠ None ->
        Conds (DVMStatus final)
        = DeleteCondition Running (Conds (DVMStatus direct2))
        /\ FindCondition Succeeded (Conds (DVMStatus final))
           = FindCondition Succeeded (Conds (DVMStatus direct2))
        /\ countType Succeeded (Conds (DVMStatus final))
           = countType Succeeded (Conds (DVMStatus direct2))).
Proof.
  intros Hruns Herr Hphase Huniq.
  pose proof (runError_Completed _ _ _ _ _ Herr Hphase) as (Hnone & _ & Hsame).
  rewrite (migrate_runs _ _ _ _ _ _ _ Hruns), Herr.
  rewrite (result_Completed _ _ Hphase). cbn [fst snd].
  set (conds := Conds (DVMStatus direct2)) in *.
  assert (Hfailed : FindCondition Failed (DeleteCondition Running conds)
                    = FindCondition Failed conds)
    by (apply FindCondition_DeleteCondition_ne; discriminate).
  eexists. split; [reflexivity|]. cbn [withConds withPhase DVMStatus Conds].
  fold conds. rewrite Hfailed.
  destruct (FindCondition Failed conds) as [failed|] eqn:Hf;
    cbn [withConds DVMStatus Conds Phase]; (split; [done|]).
  - split; [reflexivity|].
    split; [by apply FindCondition_DeleteCondition_eq|].
    split; [discriminate|]. intros _.
    split; [reflexivity|]. split.
    + apply FindCondition_DeleteCondition_ne. discriminate.
    + apply countType_DeleteCondition_ne. discriminate.
  - split; [reflexivity|].
    split.
    { rewrite FindCondition_SetCondition_ne by discriminate.
      by apply FindCondition_DeleteCondition_eq. }
    split; [|done]. intros _.
    split; [apply (FindCondition_SetCondition_eq
                     (succeededCondition SucceededMessage Completed))|].
    change Succeeded
      with (Type_ (succeededCondition SucceededMessage Completed)) at 1.
    rewrite countType_SetCondition_eq. cbn [succeededCondition Type_].
    rewrite countType_DeleteCondition_ne by discriminate.
    cbn [withPhase DVMStatus Conds]. fold conds.
    pose proof (countType_unique Succeeded conds Huniq). lia.
Qed.

(** What [Task.fail] followed by lines 71-104 leaves on the object. *)
Lemma result_fail category reasons task direct :
  let failed := failedCondition (TaskPhase task) category reasons in
  let after := fail MigrationFailed category reasons task direct in
  Phase (DVMStatus (result after.1 after.2).1) = MigrationFailed
  /\ FindCondition Failed (Conds (DVMStatus (result after.1 after.2).1))
     = Some failed
  /\ (result after.1 after.2).2 = Requeue task.
Proof.
  cbn zeta. unfold fail. cbn [fst snd].
  destruct (result_not_Completed (setPhase MigrationFailed task)
              (withConds (SetCondition
                            (failedCondition (TaskPhase task) category reasons))
                         direct))
    as (step & n & total & _ & ->); [discriminate|].
  cbn [fst snd withConds withPhase DVMStatus Conds Phase].
  split; [reflexivity|]. split; [|reflexivity].
  rewrite FindCondition_SetCondition_ne by discriminate.
  apply (FindCondition_SetCondition_eq
           (failedCondition (TaskPhase task) category reasons)).
Qed.

(** [migrate] on the path where the step executor fails with an error that
    is no conflict (lines 59-104). *)
Lemma migrate_fails r direct w task' direct' w' err :
  runs r direct w task' direct' w' (Some err) ->
  k8serrors.IsConflict (errorutil.Unwrap err) = false ->
  let category := if errors.Is err FatalPlanError then Critical else Warn in
  let after := fail MigrationFailed category [Error err] task' direct' in
  migrate r direct w
  = Returns ((result after.1 after.2).1, w', Requeue task', None)
  /\ Phase (DVMStatus (result after.1 after.2).1) = MigrationFailed
  /\ FindCondition Failed (Conds (DVMStatus (result after.1 after.2).1))
     = Some (failedCondition (TaskPhase task') category [Error err]).
Proof.
  intros Hruns Hconflict category after.
  rewrite (migrate_runs _ _ _ _ _ _ _ Hruns).
  unfold runError. rewrite Hconflict.
  destruct (result_fail category [Error err] task' direct') as (Hp & Hf & Hq).
  fold after in Hp, Hf, Hq.
  assert (Hafter : (if errors.Is err FatalPlanError
                    then Some (fail MigrationFailed Critical [Error err] task' direct')
                    else Some (fail MigrationFailed Warn [Error err] task' direct'))
                   = Some (after.1, after.2)).
  { subst after category. destruct (errors.Is err FatalPlanError);
      by rewrite <- surjective_pairing. }
  rewrite Hafter, Hq. done.
Qed.

(** C3: when the step executor returns an error that is no conflict, the
    task fails into [MigrationFailed]: [migrate] leaves the status phase
    [MigrationFailed] and a durable [Failed] condition whose category is
    [Critical] if the error is, in the sense of [errors.Is], the fatal plan
    error, and [Warn] otherwise, and whose message is the text of the error.
    The executor is not run again: the object is what [Task.fail] and the
    status lines make of the one the executor left, the clusters are as its
    one run left them, whatever the executor, and [migrate] returns the
    requeue of the task with a nil error. *)
Theorem migrate_step_error r direct w task' direct' w' err :
  runs r direct w task' direct' w' (Some err) ->
  k8serrors.IsConflict (errorutil.Unwrap err) = false ->
  let category := if errors.Is err FatalPlanError then Critical else Warn in
  let after := fail MigrationFailed category [Error err] task' direct' in
  exists final failed,
    migrate r direct w = Returns (final, w', Requeue task', None)
    /\ final = (result after.1 after.2).1
    /\ Phase (DVMStatus final) = MigrationFailed
    /\ FindCondition Failed (Conds (DVMStatus final)) = Some failed
    /\ Category failed = category
    /\ Message failed = Error err
    /\ Status failed = True_
    /\ Durable failed = true.
Proof.
  intros Hruns Hconflict category after.
  destruct (migrate_fails _ _ _ _ _ _ _ Hruns Hconflict) as (Hm & Hp & Hf).
  eexists _, _. split; [exact Hm|].
  split; [reflexivity|]. split; [exact Hp|]. split; [exact Hf|].
  repeat split; reflexivity.
Qed.

(** C4, amended: no failure of a reconcile is dropped, but only those of
    the step executor are recorded on the object. An error of a resolver is
    returned to the caller, wrapped and not nil, and the object is left as
    it was. An error of the step executor that is no conflict is recorded
    in a [Failed] condition that carries its text, and [migrate] returns a
    nil error. *)
Theorem migrate_failure_returned_or_recorded r direct w (f : failure) :
  reconcileFails Run RSYNC_ENDPOINT_TYPE now r direct w f ->
  exists final w' requeue err',
    migrate r direct w = Returns (final, w', requeue, err')
    /\ match f with
       | ResolverFailure e =>
           final = direct /\ err' = liberr.Wrap (Some e) /\ is_Some err'
       | StepFailure e =>
           err' = None
           /\ exists failed,
               FindCondition Failed (Conds (DVMStatus final)) = Some failed
               /\ Message failed = Error e
       end.
Proof.
  intros [e Hfails|task' direct' w' e Hruns Hconflict].
  - exists direct, w, 0%Z, (liberr.Wrap (Some e)).
    split; [by apply migrate_resolverFails|].
    split; [reflexivity|]. split; [reflexivity | apply Wrap_is_Some].
  - destruct (migrate_fails _ _ _ _ _ _ _ Hruns Hconflict) as (Hm & _ & Hf).
    eexists _, w', (Requeue task'), None. split; [exact Hm|].
    split; [reflexivity|]. eexists. split; [exact Hf | reflexivity].
Qed.

(** C10: when one of the three resolvers returns an error, [migrate]
    returns the duration 0 with that error wrapped, which is not nil; the
    object it returns is [direct] itself, so phase, phase description,
    itinerary, conditions and start timestamp are as they were, and the
    step executor has not run. *)
Theorem migrate_resolver_error r direct w e :
  resolverFails r direct e ->
  exists final,
    migrate r direct w = Returns (final, w, 0%Z, liberr.Wrap (Some e))
    /\ is_Some (liberr.Wrap (Some e))
    /\ final = direct
    /\ Phase (DVMStatus final) = Phase (DVMStatus direct)
    /\ PhaseDescription (DVMStatus final) = PhaseDescription (DVMStatus direct)
    /\ Itinerary_ (DVMStatus final) = Itinerary_ (DVMStatus direct)
    /\ Conds (DVMStatus final) = Conds (DVMStatus direct)
    /\ StartTimestamp (DVMStatus final) = StartTimestamp (DVMStatus direct).
Proof.
  intros Hfails. exists direct.
  split; [by apply migrate_resolverFails|].
  split; [apply Wrap_is_Some | done].
Qed.

End EngineFacts.

(** ** The engine on the fixtures *)

Section EngineExamples.

Import migapi directvolumemigration.

(** On a fixture the resolvers and the step executor compute: the outcomes
    that [runs] relates are read off by evaluation. *)
Ltac fixture_runs :=
  eexists _, _, _; split; [repeat split; reflexivity | reflexivity].

Lemma migrate_conflict_witness :
  exists final,
    fixtures.reconcile (fixtures.failsWith (LibError fixtures.conflict))
      fixtures.healthy fixtures.inProgress 0
    = Returns (final, 1, 100%Z, None)
    /\ Phase (DVMStatus final) = "CreateRsyncTransferPods"
    /\ FindCondition Failed (Conds (DVMStatus final)) = None.
Proof.
  edestruct (migrate_conflict (fixtures.failsWith (LibError fixtures.conflict))
               fixtures.report fixtures.runningMessage fixtures.succeededMessage
               fixtures.fatalPlanError 100%Z 0%Z fixtures.endpointKey 42%Z
               fixtures.healthy fixtures.inProgress 0)
    as (final & Hm & _ & Hp & _ & Hf).
  - fixture_runs.
  - reflexivity.
  - reflexivity.
  - reflexivity.
  - reflexivity.
  - exists final. split; [exact Hm|]. split; [exact Hp | exact Hf].
Defined.

Lemma migrate_completed_witness :
  exists final,
    fixtures.reconcile (fixtures.runsTo Completed 0%Z)
      fixtures.healthy fixtures.inProgress 0
    = Returns (final, 1, 0%Z, None)
    /\ Phase (DVMStatus final) = Completed
    /\ FindCondition Running (Conds (DVMStatus final)) = None
    /\ countType Succeeded (Conds (DVMStatus final)) = 1.
Proof.
  edestruct (migrate_completed (fixtures.runsTo Completed 0%Z)
               fixtures.report fixtures.runningMessage fixtures.succeededMessage
               fixtures.fatalPlanError 100%Z 0%Z fixtures.endpointKey 42%Z
               fixtures.healthy fixtures.inProgress 0)
    as (final & Hm & _ & Hp & Hr & Hs & _).
  - fixture_runs.
  - reflexivity.
  - reflexivity.
  - apply NoDup_singleton.
  - exists final. split; [exact Hm|]. split; [exact Hp|]. split; [exact Hr|].
    apply Hs. reflexivity.
Defined.

Lemma migrate_step_error_witness :
  exists final,
    fixtures.reconcile (fixtures.failsWith (LibError fixtures.fatalPlanError))
      fixtures.healthy fixtures.inProgress 0
    = Returns (final, 1, 0%Z, None)
    /\ Phase (DVMStatus final) = MigrationFailed
    /\ (Category <$> FindCondition Failed (Conds (DVMStatus final)))
       = Some Critical.
Proof.
  edestruct (migrate_step_error
               (fixtures.failsWith (LibError fixtures.fatalPlanError))
               fixtures.report fixtures.runningMessage fixtures.succeededMessage
               fixtures.fatalPlanError 100%Z 0%Z fixtures.endpointKey 42%Z
               fixtures.healthy fixtures.inProgress 0)
    as (final & failed & Hm & _ & Hp & Hf & Hc & _).
  - fixture_runs.
  - reflexivity.
  - exists final. split; [exact Hm|]. split; [exact Hp|]. rewrite Hf.
    simpl. rewrite Hc. reflexivity.
Defined.

(** C4, as stated, fails where a resolver fails: the migration lookup
    answers NotFound, which is no conflict; [migrate] returns the error and
    the object as it was, with no [Failed] condition and no condition at
    all. *)
Lemma migrate_resolver_failure_not_recorded :
  resolverFails fixtures.endpointKey fixtures.lost fixtures.owned
                (LibError fixtures.notFound)
  /\ k8serrors.IsConflict (errorutil.Unwrap (LibError fixtures.notFound)) = false
  /\ fixtures.reconcile (fixtures.runsTo Completed 0%Z)
       fixtures.lost fixtures.owned 0
     = Returns (fixtures.owned, 0, 0%Z, Some (LibError fixtures.notFound))
  /\ FindCondition Failed (Conds (DVMStatus fixtures.owned)) = None
  /\ Conds (DVMStatus fixtures.owned) = [].
Proof.
  split; [eapply planResourcesFail; reflexivity|].
  repeat split; reflexivity.
Qed.

Lemma migrate_failure_returned_or_recorded_witness :
  (exists final w' requeue,
     fixtures.reconcile (fixtures.failsWith (LibError fixtures.podFailed))
       fixtures.healthy fixtures.inProgress 0
     = Returns (final, w', requeue, None)
     /\ (Message <$> FindCondition Failed (Conds (DVMStatus final)))
        = Some "rsync pod failed")
  /\ (exists w' requeue,
        fixtures.reconcile (fixtures.failsWith (LibError fixtures.podFailed))
          fixtures.lost fixtures.owned 0
        = Returns (fixtures.owned, w', requeue,
                   Some (LibError fixtures.notFound))).
Proof.
  split.
  - edestruct (migrate_failure_returned_or_recorded
                 (fixtures.failsWith (LibError fixtures.podFailed))
                 fixtures.report fixtures.runningMessage fixtures.succeededMessage
                 fixtures.fatalPlanError 100%Z 0%Z fixtures.endpointKey 42%Z
                 fixtures.healthy fixtures.inProgress 0
                 (StepFailure (LibError fixtures.podFailed)))
      as (final & w' & requeue & err' & Hm & -> & failed & Hf & Hmsg).
    + eapply step_fails; [fixture_runs | reflexivity].
    + exists final, w', requeue. split; [exact Hm|]. rewrite Hf. simpl.
      rewrite Hmsg. reflexivity.
  - edestruct (migrate_failure_returned_or_recorded
                 (fixtures.failsWith (LibError fixtures.podFailed))
                 fixtures.report fixtures.runningMessage fixtures.succeededMessage
                 fixtures.fatalPlanError 100%Z 0%Z fixtures.endpointKey 42%Z
                 fixtures.lost fixtures.owned 0
                 (ResolverFailure (LibError fixtures.notFound)))
      as (final & w' & requeue & err' & Hm & -> & -> & _).
    + apply resolver_fails. eapply planResourcesFail. reflexivity.
    + exists w', requeue. exact Hm.
Defined.

Lemma migrate_resolver_error_witness :
  exists final,
    fixtures.reconcile (fixtures.runsTo Completed 0%Z)
      fixtures.lost fixtures.inProgress 0
    = Returns (final, 0, 0%Z, Some (LibError fixtures.notFound))
    /\ DVMStatus final = fixtures.midway.
Proof.
  edestruct (migrate_resolver_error (fixtures.runsTo Completed 0%Z)
               fixtures.report fixtures.runningMessage fixtures.succeededMessage
               fixtures.fatalPlanError 100%Z 0%Z fixtures.endpointKey 42%Z
               fixtures.lost fixtures.inProgress 0 (LibError fixtures.notFound))
    as (final & Hm & _ & -> & _).
  - eapply planResourcesFail. reflexivity.
  - exists fixtures.inProgress. split; [exact Hm | reflexivity].
Defined.

End EngineExamples.

(** ** The trace correlator *)

Section TraceFacts.

Import migapi directimagemigration.

Context {Tracer Span SpanContext : Type}.
Context (Enabled : bool) (InitJaeger : string -> Tracer).
Context (GetSpanForMigrationUID : string -> option Span).
Context (Context_ : Span -> SpanContext).
Context (StartSpan : Tracer -> string -> StartSpanOption SpanContext -> Span).

Local Abbreviation initTracer :=
  (initTracer Enabled InitJaeger GetSpanForMigrationUID Context_ StartSpan).

(** The loop leaves the span registered for the last owner reference of kind
    MigMigration, nil when there is no such reference or no such span. *)
Lemma migrationSpanOf_last (ownerRefs : list OwnerReference) :
  migrationSpanOf GetSpanForMigrationUID ownerRefs =
  last (filter (fun ownerRef => Kind ownerRef = "MigMigration") ownerRefs)
  ≫= fun ownerRef => GetSpanForMigrationUID (UID ownerRef).
Proof.
  unfold migrationSpanOf.
  induction ownerRefs as [|ownerRef ownerRefs IH] using rev_ind; [reflexivity|].
  rewrite foldl_snoc, filter_app, filter_cons, filter_nil.
  destruct (decide (Kind ownerRef ≠ "MigMigration")) as [Hk|Hk].
  - rewrite decide_False by exact Hk. rewrite app_nil_r. exact IH.
  - apply dec_stable in Hk. rewrite decide_True by exact Hk.
    rewrite last_snoc. reflexivity.
Qed.

Lemma theTracer_withTracer (r : ReconcileDirectImageMigration) :
  theTracer InitJaeger (withTracer InitJaeger r) = theTracer InitJaeger r.
Proof. destruct r as [[t|]]; reflexivity. Qed.

(** C9: [initTracer] returns no span when tracing is disabled and when no
    root span is registered for the UID of the owning MigMigration, which
    includes the object without owner reference of kind MigMigration;
    otherwise it returns the span started, on the tracer of the reconciler,
    under the name of the reconcile as a child of the context of that root
    span. *)
Theorem initTracer_spec (r : ReconcileDirectImageMigration)
    (dim : DirectImageMigration) :
  let root :=
    owningMigration dim ≫= fun ownerRef => GetSpanForMigrationUID (UID ownerRef) in
  ((initTracer r dim).2 = None <-> Enabled = false \/ root = None)
  /\ (owningMigration dim = None -> (initTracer r dim).2 = None)
  /\ (forall migrationSpan,
        Enabled = true -> root = Some migrationSpan ->
        (initTracer r dim).2
        = Some (StartSpan (theTracer InitJaeger r)
                          ("dim-reconcile-" +:+ DIMName dim)
                          (ChildOf (Context_ migrationSpan)))).
Proof.
  cbn zeta. unfold directimagemigration.initTracer, owningMigration.
  rewrite migrationSpanOf_last, theTracer_withTracer.
  destruct Enabled; cbn [negb].
  - destruct (last _ ≫= _) as [migrationSpan|] eqn:Hroot; cbn [snd].
    + split; [split; [discriminate | intros [?|?]; discriminate]|].
      split.
      * intros Hnone. rewrite Hnone in Hroot. discriminate.
      * intros ? _ [= <-]. reflexivity.
    + split; [split; [by right | reflexivity]|].
      split; [reflexivity | discriminate].
  - cbn [snd]. split; [split; [by left | reflexivity]|].
    split; [reflexivity | discriminate].
Qed.

End TraceFacts.

(** The trace correlator on the fixtures: the owner with a registered root
    span gives a child span of that root; an object without owner gives no
    span. *)
Lemma initTracer_spec_witness :
  (fixtures.trace true {| directimagemigration.tracer := None |}
                  (fixtures.image [fixtures.owner])).2
  = Some ["dim-reconcile-dim"; "migration-uid-1"]
  /\ (fixtures.trace true {| directimagemigration.tracer := None |}
                     (fixtures.image [])).2 = None.
Proof.
  split.
  - apply (proj2 (proj2 (initTracer_spec true (fun service : string => service)
                           fixtures.registered (fun span => span)
                           fixtures.startSpan
                           {| directimagemigration.tracer := None |}
                           (fixtures.image [fixtures.owner])))
             ["migration-uid-1"]); reflexivity.
  - apply (proj1 (proj2 (initTracer_spec true (fun service : string => service)
                           fixtures.registered (fun span => span)
                           fixtures.startSpan
                           {| directimagemigration.tracer := None |}
                           (fixtures.image [])))).
    reflexivity.
Defined.

(** With tracing disabled there is no span and the tracer is not set; the
    reconciler keeps the tracer it set; of several owners of kind
    MigMigration the last one counts. *)
Example initTracer_disabled :
  fixtures.trace false {| directimagemigration.tracer := None |}
                 (fixtures.image [fixtures.owner])
  = ({| directimagemigration.tracer := None |}, None).
Proof. reflexivity. Qed.

Example initTracer_sets_tracer :
  (fixtures.trace true {| directimagemigration.tracer := None |}
                  (fixtures.image [fixtures.owner])).1
  = {| directimagemigration.tracer := Some "DirectImageMigration" |}.
Proof. reflexivity. Qed.

Example initTracer_last_owner_counts :
  (fixtures.trace true {| directimagemigration.tracer := None |}
                  (fixtures.image [fixtures.owner; fixtures.stranger])).2 = None
  /\ (fixtures.trace true {| directimagemigration.tracer := None |}
                     (fixtures.image [fixtures.stranger; fixtures.owner])).2
     = Some ["dim-reconcile-dim"; "migration-uid-1"].
Proof. split; reflexivity. Qed.

(** * Further properties of the resolvers *)

Section PlanResourcesOutcomes.

Import migapi directvolumemigration.

Implicit Types (r : ReconcileDirectVolumeMigration) (direct : DirectVolumeMigration).

(** Unfolds the monadic steps of a resolver in a hypothesis. *)
Ltac step_in H :=
  cbn [mbind outcome_bind mret outcome_ret deref negb] in H.

(** X4: [getDVMPlanResources] makes up no error. An error it returns is the
    wrapped error of one of its three lookups: of the migration lookup or of
    the plan lookup, and then the resources are the empty set, or of the
    resource lookup of a ready plan, and then the resources are those that
    lookup returned. *)
Theorem getDVMPlanResources_error_origin r direct planResources e' :
  getDVMPlanResources r direct = Returns (planResources, Some e') ->
  exists e,
    liberr.Wrap (Some e) = Some e'
    /\ OwnerReferences direct ≠ []
    /\ ((exists migration,
           GetMigrationForDVM r direct = (migration, Some e)
           /\ planResources = Some emptyPlanResources)
        \/ (exists migration plan,
              GetMigrationForDVM r direct = (Some migration, None)
              /\ GetPlan r migration = (plan, Some e)
              /\ planResources = Some emptyPlanResources)
        \/ (exists migration plan,
              GetMigrationForDVM r direct = (Some migration, None)
              /\ GetPlan r migration = (Some plan, None)
              /\ IsReady plan = true
              /\ GetRefResources r plan = (planResources, Some e))).
Proof.
  unfold getDVMPlanResources. intros H.
  destruct (OwnerReferences direct) as [|o os]; [discriminate|].
  rewrite decide_True in H by (simpl; lia).
  destruct (GetMigrationForDVM r direct) as [m [e|]] eqn:Hm.
  { injection H as <- He'. exists e. split; [exact He'|]. split; [done|].
    left. eauto. }
  destruct m as [migration|]; [|discriminate].
  destruct (GetPlan r migration) as [p [e|]] eqn:Hp.
  { injection H as <- He'. exists e. split; [exact He'|]. split; [done|].
    right; left. eauto. }
  destruct p as [plan|]; [|discriminate]. step_in H.
  destruct (IsReady plan) eqn:Hready; step_in H; [|discriminate].
  destruct (GetRefResources r plan) as [res [e|]] eqn:Hres; [|discriminate].
  injection H as <- He'. exists e. split; [exact He'|]. split; [done|].
  right; right. eauto 10.
Qed.

Lemma getDVMPlanResources_error_origin_witness :
  exists e,
    liberr.Wrap (Some e) = Some (LibError fixtures.forbidden)
    /\ GetRefResources fixtures.unresolved fixtures.readyPlan = (None, Some e).
Proof.
  destruct (getDVMPlanResources_error_origin fixtures.unresolved fixtures.owned
              None (LibError fixtures.forbidden) eq_refl)
    as (e & Hwrap & _ & [(m & H & _)|[(m & p & _ & H & _)|(m & p & Hm & Hp & _ & H)]]).
  - discriminate H.
  - discriminate H.
  - exists e. split; [exact Hwrap|].
    injection Hp as <-. exact H.
Defined.

(** X5: [getDVMPlanResources] panics in exactly one situation: the task has
    an owner reference, its migration is found, and the plan lookup returns
    neither a plan nor an error, so that line 130 reads the status of a nil
    plan. *)
Theorem getDVMPlanResources_panics r direct :
  getDVMPlanResources r direct = Panics <->
  OwnerReferences direct ≠ []
  /\ exists migration,
       GetMigrationForDVM r direct = (Some migration, None)
       /\ GetPlan r migration = (None, None).
Proof.
  unfold getDVMPlanResources. split.
  - intros H.
    destruct (OwnerReferences direct) as [|o os]; [discriminate|].
    rewrite decide_True in H by (simpl; lia). split; [done|].
    destruct (GetMigrationForDVM r direct) as [m [e|]] eqn:Hm; [discriminate|].
    destruct m as [migration|]; [|discriminate]. exists migration.
    split; [reflexivity|].
    destruct (GetPlan r migration) as [p [e|]] eqn:Hp; [discriminate|].
    destruct p as [plan|]; [|reflexivity]. step_in H.
    destruct (IsReady plan); step_in H; [|discriminate].
    destruct (GetRefResources r plan) as [res [e|]]; discriminate.
  - intros [Hown (migration & Hm & Hp)].
    destruct (OwnerReferences direct) as [|o os]; [done|].
    rewrite decide_True by (simpl; lia). rewrite Hm, Hp. reflexivity.
Qed.

Lemma getDVMPlanResources_panics_witness :
  getDVMPlanResources fixtures.planless fixtures.owned = Panics.
Proof.
  apply getDVMPlanResources_panics. split; [discriminate|].
  exists fixtures.migration. split; reflexivity.
Defined.

End PlanResourcesOutcomes.

Section EndpointOutcomes.

Import migapi directvolumemigration.

Ltac step_in H :=
  cbn [mbind outcome_bind mret outcome_ret deref] in H.

(** X6: whenever [getEndpointType] returns without error, the endpoint type
    it returns is one of [Route], [ClusterIP] and [NodePort], whatever the
    config map holds. *)
Theorem getEndpointType_valid (RSYNC_ENDPOINT_TYPE : string)
    (r : ReconcileDirectVolumeMigration)
    (direct : DirectVolumeMigration) (endpointType : string) :
  getEndpointType RSYNC_ENDPOINT_TYPE r direct = Returns (endpointType, None) ->
  endpointType ∈ [Route; ClusterIP; NodePort].
Proof.
  unfold getEndpointType. intros H.
  destruct (GetDestinationCluster r direct) as [c [e|]];
    [destruct (Wrap_is_Some e) as [e' He']; rewrite He' in H; discriminate|].
  destruct c as [destCluster|]; [|discriminate]. step_in H.
  destruct (GetClient r destCluster) as [destClient [e|]];
    [destruct (Wrap_is_Some e) as [e' He']; rewrite He' in H; discriminate|].
  destruct (GetClusterConfigMap r destCluster destClient) as [cm [e|]];
    [destruct (Wrap_is_Some e) as [e' He']; rewrite He' in H; discriminate|].
  destruct cm as [clusterConfig|]; [|discriminate]. step_in H.
  destruct (Data clusterConfig !! RSYNC_ENDPOINT_TYPE) as [v|].
  - destruct (decide (v = Route ∨ v = ClusterIP ∨ v = NodePort)) as [Hv|Hv];
      injection H as <-.
    + rewrite !elem_of_cons. tauto.
    + left.
  - injection H as <-. left.
Qed.

Lemma getEndpointType_valid_witness :
  getEndpointType fixtures.endpointKey (fixtures.configured "ClusterIP")
                  fixtures.owned
  = Returns ("ClusterIP", None)
  /\ "ClusterIP" ∈ [Route; ClusterIP; NodePort].
Proof.
  split; [reflexivity|].
  apply (getEndpointType_valid fixtures.endpointKey
           (fixtures.configured "ClusterIP") fixtures.owned).
  reflexivity.
Defined.

(** X7: [getEndpointType] makes up no error. When it returns an error the
    endpoint type is the empty string and the error is the wrapped error of
    the destination cluster lookup, of the client construction or of the
    config map lookup; an unknown value of the config key is never an
    error. *)
Theorem getEndpointType_error_origin (RSYNC_ENDPOINT_TYPE : string)
    (r : ReconcileDirectVolumeMigration)
    (direct : DirectVolumeMigration) (endpointType : string) (e' : error) :
  getEndpointType RSYNC_ENDPOINT_TYPE r direct = Returns (endpointType, Some e') ->
  endpointType = ""
  /\ exists e,
       liberr.Wrap (Some e) = Some e'
       /\ ((exists destCluster,
              GetDestinationCluster r direct = (destCluster, Some e))
           \/ (exists destCluster destClient,
                 GetDestinationCluster r direct = (Some destCluster, None)
                 /\ GetClient r destCluster = (destClient, Some e))
           \/ (exists destCluster destClient clusterConfig,
                 GetDestinationCluster r direct = (Some destCluster, None)
                 /\ GetClient r destCluster = (destClient, None)
                 /\ GetClusterConfigMap r destCluster destClient
                    = (clusterConfig, Some e))).
Proof.
  unfold getEndpointType. intros H.
  destruct (GetDestinationCluster r direct) as [c [e|]] eqn:Hc.
  { injection H as <- He'. split; [reflexivity|]. exists e. eauto. }
  destruct c as [destCluster|]; [|discriminate]. step_in H.
  destruct (GetClient r destCluster) as [destClient [e|]] eqn:Hcl.
  { injection H as <- He'. split; [reflexivity|]. exists e.
    split; [exact He'|]. right; left. eauto. }
  destruct (GetClusterConfigMap r destCluster destClient) as [cm [e|]] eqn:Hcm.
  { injection H as <- He'. split; [reflexivity|]. exists e.
    split; [exact He'|]. right; right. eauto 10. }
  destruct cm as [clusterConfig|]; [|discriminate]. step_in H.
  destruct (Data clusterConfig !! RSYNC_ENDPOINT_TYPE) as [v|]; [|discriminate].
  destruct (decide (v = Route ∨ v = ClusterIP ∨ v = NodePort)); discriminate.
Qed.

Lemma getEndpointType_error_origin_witness :
  exists e,
    liberr.Wrap (Some e) = Some (LibError fixtures.forbidden)
    /\ GetClusterConfigMap fixtures.unconfigured {| ClusterName := "dest" |}
         (Some 0) = (None, Some e).
Proof.
  destruct (getEndpointType_error_origin fixtures.endpointKey
              fixtures.unconfigured fixtures.owned
              "" (LibError fixtures.forbidden) eq_refl)
    as (_ & e & Hwrap & [(c & H)|[(c & cl & _ & H)|(c & cl & cm & Hc & Hcl & H)]]).
  - discriminate H.
  - discriminate H.
  - exists e. split; [exact Hwrap|].
    injection Hc as <-. injection Hcl as <-. injection H as <- <-. reflexivity.
Defined.

End EndpointOutcomes.

Section SparseFileOutcomes.

Import migapi directvolumemigration.

Implicit Types (r : ReconcileDirectVolumeMigration) (m : gmap string bool).
Implicit Types (items : list MigAnalytic) (k : string).

(** X8: [getSparseFilePVCMap] returns an error only when the listing of the
    analytics of a plan fails: the error is the wrapped error of the listing
    and the mapping is nil. For a nil plan nothing is listed and there is
    no error. *)
Theorem getSparseFilePVCMap_error_origin r (plan : option MigPlan)
    (sparseFilesMap : option (gmap string bool)) (e' : error) :
  getSparseFilePVCMap r plan = (sparseFilesMap, Some e') ->
  sparseFilesMap = None
  /\ exists p items e,
       plan = Some p
       /\ List_ r {[ "migplan" := PlanName p ]} = (items, Some e)
       /\ liberr.Wrap (Some e) = Some e'.
Proof.
  unfold getSparseFilePVCMap. destruct plan as [p|]; [|discriminate].
  destruct (List_ r _) as [items [e|]] eqn:Hl; [|discriminate].
  intros [= <- He']. split; [reflexivity|]. eauto 10.
Qed.

Lemma getSparseFilePVCMap_error_origin_witness :
  getSparseFilePVCMap fixtures.unlisted (Some fixtures.readyPlan)
  = (None, Some (LibError fixtures.forbidden))
  /\ exists items e,
       List_ fixtures.unlisted {[ "migplan" := "plan" ]} = (items, Some e)
       /\ liberr.Wrap (Some e) = Some (LibError fixtures.forbidden).
Proof.
  split; [reflexivity|].
  destruct (getSparseFilePVCMap_error_origin fixtures.unlisted
              (Some fixtures.readyPlan) None (LibError fixtures.forbidden)
              eq_refl) as (_ & p & items & e & [= <-] & Hl & Hw).
  exists items, e. split; [exact Hl | exact Hw].
Defined.

(** The mapping of a listing, by its keys. *)
Lemma sparseItems_true items k v :
  sparseItems items ∅ !! k = Some v -> v = true.
Proof.
  destruct (sparseItems_lookup items ∅ k) as [[_ ->]|[_ ->]];
    [by intros [= <-] | by rewrite lookup_empty].
Qed.

Lemma sparseItems_elem items items' k :
  (forall a, a ∈ items -> a ∈ items') ->
  sparseItems items ∅ !! k = Some true ->
  sparseItems items' ∅ !! k = Some true.
Proof.
  intros Hsub.
  destruct (sparseItems_lookup items ∅ k) as [[Hmet _]|[_ ->]];
    [|by rewrite lookup_empty].
  intros _.
  destruct (sparseItems_lookup items' ∅ k) as [[_ ->]|[Hno _]]; [reflexivity|].
  destruct Hno. destruct Hmet as (a & ns & pv & Hin & H).
  exists a, ns, pv. split; [by apply Hsub | exact H].
Qed.

(** X9: listing more analytics records never removes a key: when every
    record of one listing is in the other, the mapping of the first is
    included in the mapping of the second. *)
Theorem getSparseFilePVCMap_monotone r r' (plan : MigPlan) items items' :
  List_ r {[ "migplan" := PlanName plan ]} = (items, None) ->
  List_ r' {[ "migplan" := PlanName plan ]} = (items', None) ->
  (forall a, a ∈ items -> a ∈ items') ->
  exists m m',
    getSparseFilePVCMap r (Some plan) = (Some m, None)
    /\ getSparseFilePVCMap r' (Some plan) = (Some m', None)
    /\ m ⊆ m'.
Proof.
  intros Hl Hl' Hsub. unfold getSparseFilePVCMap. rewrite Hl, Hl'.
  eexists _, _. split; [reflexivity|]. split; [reflexivity|].
  apply map_subseteq_spec. intros k v Hk.
  pose proof (sparseItems_true _ _ _ Hk) as ->.
  by apply (sparseItems_elem items).
Qed.

Lemma getSparseFilePVCMap_monotone_witness :
  exists m m' : gmap string bool,
    getSparseFilePVCMap fixtures.healthy (Some fixtures.readyPlan) = (Some m, None)
    /\ getSparseFilePVCMap
         (fixtures.listing (fixtures.analytics ++ fixtures.moreAnalytics)%list)
         (Some fixtures.readyPlan) = (Some m', None)
    /\ m ⊆ m'.
Proof.
  apply (getSparseFilePVCMap_monotone _ _ _ fixtures.analytics
           (fixtures.analytics ++ fixtures.moreAnalytics)%list);
    [reflexivity | reflexivity |].
  intros a Ha. apply elem_of_app. by left.
Defined.

(** X10: the mapping of two listings put together is the union of their
    mappings. *)
Theorem getSparseFilePVCMap_union r1 r2 r (plan : MigPlan) items1 items2 :
  List_ r1 {[ "migplan" := PlanName plan ]} = (items1, None) ->
  List_ r2 {[ "migplan" := PlanName plan ]} = (items2, None) ->
  List_ r {[ "migplan" := PlanName plan ]} = ((items1 ++ items2)%list, None) ->
  exists m1 m2,
    getSparseFilePVCMap r1 (Some plan) = (Some m1, None)
    /\ getSparseFilePVCMap r2 (Some plan) = (Some m2, None)
    /\ getSparseFilePVCMap r (Some plan) = (Some (m1 ∪ m2), None).
Proof.
  intros H1 H2 H. unfold getSparseFilePVCMap. rewrite H1, H2, H.
  eexists _, _. split; [reflexivity|]. split; [reflexivity|].
  do 2 f_equal. apply map_eq. intros k. rewrite lookup_union.
  destruct (sparseItems items1 ∅ !! k) as [v1|] eqn:E1.
  - pose proof (sparseItems_true _ _ _ E1) as ->.
    rewrite (sparseItems_elem items1 (items1 ++ items2)%list k); [|
      intros a Ha; apply elem_of_app; by left | exact E1].
    by destruct (sparseItems items2 ∅ !! k).
  - destruct (sparseItems items2 ∅ !! k) as [v2|] eqn:E2.
    + pose proof (sparseItems_true _ _ _ E2) as ->.
      rewrite (sparseItems_elem items2 (items1 ++ items2)%list k); [done|
        intros a Ha; apply elem_of_app; by right | exact E2].
    + destruct (sparseItems_lookup (items1 ++ items2)%list ∅ k)
        as [[Hmet _]|[_ ->]]; [|by rewrite lookup_empty].
      exfalso. destruct Hmet as (a & ns & pv & Hin & H').
      apply elem_of_app in Hin as [Hin|Hin].
      * destruct (sparseItems_lookup items1 ∅ k) as [[_ E]|[Hno _]];
          [congruence | apply Hno; eauto 10].
      * destruct (sparseItems_lookup items2 ∅ k) as [[_ E]|[Hno _]];
          [congruence | apply Hno; eauto 10].
Qed.

Lemma getSparseFilePVCMap_union_witness :
  exists m1 m2 : gmap string bool,
    getSparseFilePVCMap fixtures.healthy (Some fixtures.readyPlan) = (Some m1, None)
    /\ getSparseFilePVCMap (fixtures.listing fixtures.moreAnalytics)
         (Some fixtures.readyPlan) = (Some m2, None)
    /\ getSparseFilePVCMap
         (fixtures.listing (fixtures.analytics ++ fixtures.moreAnalytics)%list)
         (Some fixtures.readyPlan) = (Some (m1 ∪ m2), None).
Proof.
  apply (getSparseFilePVCMap_union _ _ _ _ fixtures.analytics
           fixtures.moreAnalytics); reflexivity.
Defined.

End SparseFileOutcomes.

Section SparseFileBounds.

Import migapi directvolumemigration.

Implicit Types (m : gmap string bool).

Lemma size_insert_le m k v : size (<[k:=v]> m) <= S (size m).
Proof. rewrite map_size_insert. destruct (m !! k); simpl; lia. Qed.

Lemma sparseVolumes_size ns m :
  size (sparseVolumes ns m)
  <= size m + length (filter (fun pv => SparseFilesFound pv = true)
                             (PersistentVolumes ns)).
Proof.
  unfold sparseVolumes. revert m.
  induction (PersistentVolumes ns) as [|pv pvs IH]; intros m.
  - simpl. lia.
  - cbn [foldl]. etrans; [apply IH|]. rewrite filter_cons.
    destruct (SparseFilesFound pv).
    + rewrite decide_True by reflexivity. pose proof (size_insert_le m (sparseKey ns pv) true).
      cbn [length]. lia.
    + rewrite decide_False by discriminate. lia.
Qed.

Lemma sparseNamespaces_size a m :
  size (sparseNamespaces a m)
  <= size m
     + sum_list ((fun ns =>
                    length (filter (fun pv => SparseFilesFound pv = true)
                                   (PersistentVolumes ns)))
                   <$> Namespaces a).
Proof.
  unfold sparseNamespaces. revert m.
  induction (Namespaces a) as [|ns nss IH]; intros m.
  - simpl. lia.
  - cbn [foldl fmap list_fmap sum_list sum_list_with]. etrans; [apply IH|].
    pose proof (sparseVolumes_size ns m). simpl. lia.
Qed.

Lemma sparseItems_size items m :
  size (sparseItems items m) <= size m + flaggedVolumes items.
Proof.
  unfold sparseItems, flaggedVolumes. revert m.
  induction items as [|a items IH]; intros m.
  - simpl. lia.
  - cbn [foldl]. etrans; [apply IH|]. rewrite fmap_cons. cbn [sum_list sum_list_with].
    destruct (AnalyzeExtendedPVCapacity a).
    + pose proof (sparseNamespaces_size a m). simpl in *. lia.
    + lia.
Qed.

(** X11: the mapping holds no more keys than the listed records that asked
    for the extended analysis flag volumes; it holds fewer when two flagged
    volumes share a key. *)
Theorem getSparseFilePVCMap_size (r : ReconcileDirectVolumeMigration)
    (plan : MigPlan) (items : list MigAnalytic) :
  List_ r {[ "migplan" := PlanName plan ]} = (items, None) ->
  exists m,
    getSparseFilePVCMap r (Some plan) = (Some m, None)
    /\ size m <= flaggedVolumes items.
Proof.
  intros Hl. unfold getSparseFilePVCMap. rewrite Hl.
  eexists. split; [reflexivity|].
  pose proof (sparseItems_size items ∅) as H. by rewrite map_size_empty in H.
Qed.

Lemma getSparseFilePVCMap_size_witness :
  exists m : gmap string bool,
    getSparseFilePVCMap
      (fixtures.listing (fixtures.analytics ++ fixtures.moreAnalytics)%list)
      (Some fixtures.readyPlan) = (Some m, None)
    /\ size m <= 3.
Proof.
  apply (getSparseFilePVCMap_size _ _
           (fixtures.analytics ++ fixtures.moreAnalytics)%list).
  reflexivity.
Defined.

(** Keys of namespaces without ["/"] split in one way only. *)
Lemma append_slash_inj (s s' t t' : string) :
  noSlash s = true -> noSlash s' = true ->
  s +:+ "/" +:+ t = s' +:+ "/" +:+ t' -> s = s' /\ t = t'.
Proof.
  revert s'. induction s as [|a s IH]; intros [|a' s']; simpl; intros Hs Hs' H.
  - injection H as H. by subst.
  - injection H as Ha _. subst a'. discriminate Hs'.
  - injection H as Ha _. subst a. discriminate Hs.
  - injection H as Ha H. subst a'.
    apply andb_prop in Hs as [_ Hs]. apply andb_prop in Hs' as [_ Hs'].
    destruct (IH s' Hs Hs' H) as [Hs0 Ht]. by subst.
Qed.

(** X12: when no listed namespace has a ["/"] in its name, the mapping
    answers for a namespace and a volume name: the key
    "namespace/volume" holds [true] exactly when a listed record that asked
    for the extended analysis has a namespace of that name with a flagged
    volume of that name. *)
Theorem getSparseFilePVCMap_by_name (r : ReconcileDirectVolumeMigration)
    (plan : MigPlan) (items : list MigAnalytic) :
  List_ r {[ "migplan" := PlanName plan ]} = (items, None) ->
  (forall a ns, a ∈ items -> ns ∈ Namespaces a ->
                noSlash (Namespace ns) = true) ->
  exists m,
    getSparseFilePVCMap r (Some plan) = (Some m, None)
    /\ forall namespace volume,
         noSlash namespace = true ->
         (m !! (namespace +:+ "/" +:+ volume) = Some true <->
          exists a ns pv,
            a ∈ items /\ AnalyzeExtendedPVCapacity a = true
            /\ ns ∈ Namespaces a /\ Namespace ns = namespace
            /\ pv ∈ PersistentVolumes ns /\ PVName pv = volume
            /\ SparseFilesFound pv = true).
Proof.
  intros Hl Hnames. unfold getSparseFilePVCMap. rewrite Hl.
  eexists. split; [reflexivity|]. intros namespace volume Hname.
  destruct (sparseItems_lookup items ∅ (namespace +:+ "/" +:+ volume))
    as [[Hmet ->]|[Hno ->]].
  - split; [intros _|reflexivity].
    destruct Hmet as (a & ns & pv & Ha & Hflag & Hns & Hpv & Hsparse & Hkey).
    destruct (append_slash_inj _ _ _ _ Hname (Hnames a ns Ha Hns) Hkey)
      as [-> ->].
    exists a, ns, pv. done.
  - rewrite lookup_empty. split; [discriminate|].
    intros (a & ns & pv & Ha & Hflag & Hns & <- & Hpv & <- & Hsparse).
    destruct Hno. exists a, ns, pv. done.
Qed.

Lemma getSparseFilePVCMap_by_name_witness :
  exists m : gmap string bool,
    getSparseFilePVCMap fixtures.healthy (Some fixtures.readyPlan) = (Some m, None)
    /\ m !! "ns1/pvc-a" = Some true
    /\ m !! "ns1/pvc-b" ≠ Some true.
Proof.
  destruct (getSparseFilePVCMap_by_name fixtures.healthy fixtures.readyPlan
              fixtures.analytics eq_refl) as (m & Hm & Hiff).
  - intros a ns Ha Hns.
    repeat (apply elem_of_cons in Ha as [->|Ha]);
      [| |by apply elem_of_nil in Ha];
      repeat (apply elem_of_cons in Hns as [->|Hns]);
      first [reflexivity | by apply elem_of_nil in Hns].
  - exists m. split; [exact Hm|]. split.
    + apply (Hiff "ns1" "pvc-a" eq_refl).
      eexists _, _, _. split; [left|]. split; [reflexivity|].
      split; [left|]. split; [reflexivity|].
      split; [left|]. split; reflexivity.
    + intros H. apply (Hiff "ns1" "pvc-b" eq_refl) in H.
      destruct H as (a & ns & pv & Ha & Hflag & Hns & Hname & Hpv & Hvol & Hs).
      repeat (apply elem_of_cons in Ha as [->|Ha]);
        [| discriminate Hflag | by apply elem_of_nil in Ha].
      repeat (apply elem_of_cons in Hns as [->|Hns]);
        [| by apply elem_of_nil in Hns].
      repeat (apply elem_of_cons in Hpv as [->|Hpv]);
        [discriminate Hvol | discriminate Hs | by apply elem_of_nil in Hpv].
Defined.

(** Without that, two volumes can share a key. *)
Example sparseKey_collision :
  sparseKey {| Namespace := "a/b"; PersistentVolumes := [] |}
            {| PVName := "c"; SparseFilesFound := true |}
  = sparseKey {| Namespace := "a"; PersistentVolumes := [] |}
              {| PVName := "b/c"; SparseFilesFound := true |}.
Proof. reflexivity. Qed.

End SparseFileBounds.

(** * Further properties of the engine *)

Section ConditionInvariant.

Import migapi.

Implicit Types (l : Conditions) (c x : Condition) (t : string).

Lemma uniqueTypes_SetCondition c l :
  uniqueTypes l -> uniqueTypes (SetCondition c l).
Proof.
  unfold uniqueTypes. induction l as [|x l IH]; intros Hl.
  - rewrite SetCondition_nil. apply NoDup_singleton.
  - rewrite fmap_cons, NoDup_cons in Hl. destruct Hl as [Hx Hl].
    rewrite SetCondition_cons.
    destruct (decide (Type_ x = Type_ c)) as [Hxc|Hxc];
      rewrite fmap_cons, NoDup_cons.
    + rewrite <- Hxc. done.
    + split; [|by apply IH].
      apply FindCondition_None. rewrite FindCondition_SetCondition_ne by done.
      by apply FindCondition_None.
Qed.

Lemma uniqueTypes_DeleteCondition t l :
  uniqueTypes l -> uniqueTypes (DeleteCondition t l).
Proof.
  unfold uniqueTypes. induction l as [|x l IH]; intros Hl; [done|].
  rewrite fmap_cons, NoDup_cons in Hl. destruct Hl as [Hx Hl].
  rewrite DeleteCondition_cons.
  destruct (decide (Type_ x = t)) as [Hxt|Hxt]; [done|].
  rewrite fmap_cons, NoDup_cons. split; [|by apply IH].
  apply FindCondition_None. rewrite FindCondition_DeleteCondition_ne by done.
  by apply FindCondition_None.
Qed.

End ConditionInvariant.

Section EngineOutcomes.

Import migapi directvolumemigration.

Context {World : Type}.
Context (Run : Task -> DirectVolumeMigration -> World ->
               Task * DirectVolumeMigration * World * option error).
Context (progressReport : Itinerary -> string -> string * Z * Z).
Context (RunningMessage : Z -> Z -> string).
Context (SucceededMessage : string) (FatalPlanError : error).
Context (FastReQ NoReQ : Duration) (RSYNC_ENDPOINT_TYPE : string) (now : Time).

Implicit Types (r : ReconcileDirectVolumeMigration).
Implicit Types (direct : DirectVolumeMigration) (w : World) (task : Task).

Local Abbreviation migrate :=
  (migrate Run progressReport RunningMessage SucceededMessage FatalPlanError
           FastReQ NoReQ RSYNC_ENDPOINT_TYPE now).
Local Abbreviation runs := (runs Run RSYNC_ENDPOINT_TYPE now).
Local Abbreviation result :=
  (result progressReport RunningMessage SucceededMessage NoReQ).
Local Abbreviation resolverFails := (resolverFails RSYNC_ENDPOINT_TYPE).

(** X13: a reconcile whose task ends in a phase other than [Completed],
    after a step without error or after a failure, writes the phase, the
    description and the itinerary name of the task to the status and sets
    the [Running] condition: status [True], category [Advisory], not
    durable, with the step of the progress report as reason and the
    formatted progress as message. The condition replaces a [Running]
    condition rather than adding one, the other conditions and the start
    timestamp are untouched, and the requeue is that of the task. *)
Theorem migrate_running r direct w task' direct' w' err task2 direct2 :
  runs r direct w task' direct' w' err ->
  runError FatalPlanError err task' direct' = Some (task2, direct2) ->
  TaskPhase task2 ≠ Completed ->
  exists final step n total,
    progressReport (TaskItinerary task2) (TaskPhase task2) = (step, n, total)
    /\ migrate r direct w = Returns (final, w', Requeue task2, None)
    /\ Phase (DVMStatus final) = TaskPhase task2
    /\ PhaseDescription (DVMStatus final) = TaskPhaseDescription task2
    /\ Itinerary_ (DVMStatus final) = ItineraryName (TaskItinerary task2)
    /\ StartTimestamp (DVMStatus final) = StartTimestamp (DVMStatus direct2)
    /\ FindCondition Running (Conds (DVMStatus final))
       = Some {| Type_ := Running; Status := True_; Reason := step;
                 Category := Advisory; Message := RunningMessage n total;
                 Durable := false |}
    /\ (forall t, t ≠ Running ->
          FindCondition t (Conds (DVMStatus final))
          = FindCondition t (Conds (DVMStatus direct2)))
    /\ countType Running (Conds (DVMStatus final))
       = Nat.max 1 (countType Running (Conds (DVMStatus direct2))).
Proof.
  intros Hruns Herr Hphase.
  rewrite (migrate_runs _ _ _ _ _ _ _ _ _ _ _ _ _ _ _ _ Hruns), Herr.
  destruct (result_not_Completed progressReport RunningMessage SucceededMessage
              NoReQ task2 direct2 Hphase) as (step & n & total & Hreport & ->).
  exists (withConds (SetCondition (runningCondition RunningMessage step n total))
            (withPhase (TaskPhase task2) (TaskPhaseDescription task2)
                       (ItineraryName (TaskItinerary task2)) direct2)),
         step, n, total.
  split; [exact Hreport|]. split; [reflexivity|].
  cbn [withConds withPhase DVMStatus Conds Phase PhaseDescription Itinerary_
       StartTimestamp].
  repeat (split; [reflexivity|]).
  split; [apply (FindCondition_SetCondition_eq
                   (runningCondition RunningMessage step n total))|].
  split.
  - intros t Ht. apply FindCondition_SetCondition_ne. cbn. congruence.
  - apply (countType_SetCondition_eq
             (runningCondition RunningMessage step n total)).
Qed.

(** X14: [migrate] returns an error only for a failing resolver. When it
    returns an error, one of the three resolvers returned the error it
    wraps, the requeue is 0, the step executor has not run and the object
    is as it was. *)
Theorem migrate_error_origin r direct w final w' requeue e' :
  migrate r direct w = Returns (final, w', requeue, Some e') ->
  exists e,
    resolverFails r direct e
    /\ liberr.Wrap (Some e) = Some e'
    /\ final = direct /\ w' = w /\ requeue = 0%Z.
Proof.
  unfold directvolumemigration.migrate. intros H.
  destruct (getDVMPlanResources r direct) as [[pr [e|]]|] eqn:H1;
    cbn [mbind outcome_bind mret outcome_ret deref] in H; [| |discriminate].
  { injection H as <- <- <- He'. exists e.
    split; [by eapply planResourcesFail|]. done. }
  destruct pr as [resources|];
    cbn [mbind outcome_bind mret outcome_ret deref] in H; [|discriminate].
  destruct (getSparseFilePVCMap r (MigPlan_ resources)) as [sm [e|]] eqn:H2.
  { injection H as <- <- <- He'. exists e.
    split; [by eapply sparseFileMapFails|]. done. }
  destruct (getEndpointType RSYNC_ENDPOINT_TYPE r direct) as [[et [e|]]|] eqn:H3;
    cbn [mbind outcome_bind mret outcome_ret deref] in H; [| |discriminate].
  { injection H as <- <- <- He'. exists e.
    split; [by eapply endpointTypeFails|]. done. }
  destruct (Run _ _ _) as [[[task' direct'] w1] err].
  destruct (runError FatalPlanError err task' direct') as [[task2 direct2]|];
    [|discriminate].
  destruct (directvolumemigration.result _ _ _ _ task2 direct2); discriminate.
Qed.

(** X15: once the resolvers have succeeded [migrate] returns, and with a nil
    error: whatever error the step executor returns is consumed, as a fast
    requeue or as a failure of the task, never handed to the caller. The
    clusters are as the one run of the executor left them and the requeue
    is [FastReQ], [NoReQ] or the requeue of the task. *)
Theorem migrate_consumes_step_error r direct w task' direct' w' err :
  runs r direct w task' direct' w' err ->
  exists final requeue,
    migrate r direct w = Returns (final, w', requeue, None)
    /\ (requeue = FastReQ \/ requeue = NoReQ \/ requeue = Requeue task').
Proof.
  intros Hruns.
  rewrite (migrate_runs _ _ _ _ _ _ _ _ _ _ _ _ _ _ _ _ Hruns).
  destruct (runError FatalPlanError err task' direct')
    as [[task2 direct2]|] eqn:Herr; [|eauto].
  eexists _, _. split; [reflexivity|].
  assert (Hq : Requeue task2 = Requeue task').
  { unfold runError in Herr. destruct err as [e|]; [|by injection Herr as <- _].
    destruct (k8serrors.IsConflict _); [discriminate|].
    by destruct (errors.Is e FatalPlanError); injection Herr as <- _. }
  destruct (decide (TaskPhase task2 = Completed)) as [Hc|Hc].
  - rewrite (result_Completed _ _ _ _ _ _ Hc). right; left. reflexivity.
  - destruct (result_not_Completed progressReport RunningMessage
                SucceededMessage NoReQ task2 direct2 Hc)
      as (step & n & total & _ & ->).
    right; right. exact Hq.
Qed.

Lemma result_uniqueTypes task direct :
  uniqueTypes (Conds (DVMStatus direct)) ->
  uniqueTypes (Conds (DVMStatus (result task direct).1)).
Proof.
  intros Hu. destruct (decide (TaskPhase task = Completed)) as [Hc|Hc].
  - rewrite (result_Completed _ _ _ _ _ _ Hc). cbn [fst].
    destruct (FindCondition Failed _);
      cbn [withConds withPhase DVMStatus Conds];
      [|apply uniqueTypes_SetCondition];
      by apply uniqueTypes_DeleteCondition.
  - destruct (result_not_Completed progressReport RunningMessage
                SucceededMessage NoReQ task direct Hc)
      as (step & n & total & _ & ->).
    cbn [fst withConds withPhase DVMStatus Conds].
    by apply uniqueTypes_SetCondition.
Qed.

(** X16: [migrate] keeps the condition list free of duplicates: when the
    object as the step executor left it holds at most one condition per
    type, so does the object [migrate] returns, on every path. *)
Theorem migrate_keeps_uniqueTypes r direct w task' direct' w' err :
  runs r direct w task' direct' w' err ->
  uniqueTypes (Conds (DVMStatus direct')) ->
  exists final requeue,
    migrate r direct w = Returns (final, w', requeue, None)
    /\ uniqueTypes (Conds (DVMStatus final)).
Proof.
  intros Hruns Hu.
  rewrite (migrate_runs _ _ _ _ _ _ _ _ _ _ _ _ _ _ _ _ Hruns).
  destruct (runError FatalPlanError err task' direct')
    as [[task2 direct2]|] eqn:Herr; [|eauto].
  eexists _, _. split; [reflexivity|]. apply result_uniqueTypes.
  unfold runError in Herr. destruct err as [e|]; [|by injection Herr as _ <-].
  destruct (k8serrors.IsConflict _); [discriminate|].
  destruct (errors.Is e FatalPlanError); injection Herr as _ <-;
    by apply uniqueTypes_SetCondition.
Qed.

End EngineOutcomes.

Section EngineOutcomeExamples.

Import migapi directvolumemigration.

Ltac fixture_runs :=
  eexists _, _, _; split; [repeat split; reflexivity | reflexivity].

Lemma migrate_running_witness :
  exists final,
    fixtures.reconcile (fixtures.runsTo "WaitForRsyncClientPods" 3000%Z)
      fixtures.healthy fixtures.inProgress 0
    = Returns (final, 1, 3000%Z, None)
    /\ Phase (DVMStatus final) = "WaitForRsyncClientPods"
    /\ (Reason <$> FindCondition Running (Conds (DVMStatus final)))
       = Some "WaitForRsyncClientPods"
    /\ countType Running (Conds (DVMStatus final)) = 1.
Proof.
  edestruct (migrate_running
               (fixtures.runsTo "WaitForRsyncClientPods" 3000%Z)
               fixtures.report fixtures.runningMessage fixtures.succeededMessage
               fixtures.fatalPlanError 100%Z 0%Z fixtures.endpointKey 42%Z
               fixtures.healthy fixtures.inProgress 0)
    as (final & step & n & total & Hreport & Hm & Hp & _ & _ & _ & Hr & _ & Hc).
  - fixture_runs.
  - reflexivity.
  - discriminate.
  - exists final. split; [exact Hm|]. split; [exact Hp|].
    rewrite Hr, Hc. injection Hreport as <- _ _. split; reflexivity.
Defined.

Lemma migrate_error_origin_witness :
  exists e,
    resolverFails fixtures.endpointKey fixtures.lost fixtures.inProgress e
    /\ liberr.Wrap (Some e) = Some (LibError fixtures.notFound).
Proof.
  destruct (migrate_error_origin (fixtures.runsTo Completed 0%Z)
              fixtures.report fixtures.runningMessage fixtures.succeededMessage
              fixtures.fatalPlanError 100%Z 0%Z fixtures.endpointKey 42%Z
              fixtures.lost fixtures.inProgress 0
              fixtures.inProgress 0 0%Z (LibError fixtures.notFound) eq_refl)
    as (e & Hfails & Hwrap & _).
  exists e. split; [exact Hfails | exact Hwrap].
Defined.

Lemma migrate_consumes_step_error_witness :
  exists final requeue,
    fixtures.reconcile (fixtures.failsWith (LibError fixtures.podFailed))
      fixtures.healthy fixtures.inProgress 0
    = Returns (final, 1, requeue, None).
Proof.
  edestruct (migrate_consumes_step_error
               (fixtures.failsWith (LibError fixtures.podFailed))
               fixtures.report fixtures.runningMessage fixtures.succeededMessage
               fixtures.fatalPlanError 100%Z 0%Z fixtures.endpointKey 42%Z
               fixtures.healthy fixtures.inProgress 0)
    as (final & requeue & Hm & _).
  - fixture_runs.
  - exists final, requeue. exact Hm.
Defined.

Lemma migrate_keeps_uniqueTypes_witness :
  exists final requeue,
    fixtures.reconcile (fixtures.failsWith (LibError fixtures.podFailed))
      fixtures.healthy fixtures.inProgress 0
    = Returns (final, 1, requeue, None)
    /\ uniqueTypes (Conds (DVMStatus final)).
Proof.
  edestruct (migrate_keeps_uniqueTypes
               (fixtures.failsWith (LibError fixtures.podFailed))
               fixtures.report fixtures.runningMessage fixtures.succeededMessage
               fixtures.fatalPlanError 100%Z 0%Z fixtures.endpointKey 42%Z
               fixtures.healthy fixtures.inProgress 0)
    as (final & requeue & Hm & Hu).
  - fixture_runs.
  - apply NoDup_singleton.
  - exists final, requeue. split; [exact Hm | exact Hu].
Defined.

End EngineOutcomeExamples.

Section StartTimestampFacts.

Import migapi directvolumemigration.

Context {World : Type}.
Context (Run : Task -> DirectVolumeMigration -> World ->
               Task * DirectVolumeMigration * World * option error).
Context (progressReport : Itinerary -> string -> string * Z * Z).
Context (RunningMessage : Z -> Z -> string).
Context (SucceededMessage : string) (FatalPlanError : error).
Context (FastReQ NoReQ : Duration) (RSYNC_ENDPOINT_TYPE : string) (now : Time).

Lemma result_StartTimestamp (task : Task) (direct : DirectVolumeMigration) :
  StartTimestamp
    (DVMStatus (result progressReport RunningMessage SucceededMessage NoReQ
                       task direct).1)
  = StartTimestamp (DVMStatus direct).
Proof.
  destruct (decide (TaskPhase task = Completed)) as [Hc|Hc].
  - rewrite (result_Completed _ _ _ _ _ _ Hc). cbn [fst].
    by destruct (FindCondition Failed _).
  - destruct (result_not_Completed progressReport RunningMessage
                SucceededMessage NoReQ task direct Hc)
      as (step & n & total & _ & ->).
    reflexivity.
Qed.

(** X17: the start is stamped once. After a reconcile in which the step
    executor ran and left the start timestamp of its owner alone, the object
    has a start timestamp: the one it came with, or the time of this
    reconcile if it came with none; a timestamp the object came with is
    never replaced. *)
Theorem migrate_start_timestamp (r : ReconcileDirectVolumeMigration)
    (direct : DirectVolumeMigration) (w : World)
    (task' : Task) (direct' : DirectVolumeMigration) (w' : World)
    (err : option error) :
  runs Run RSYNC_ENDPOINT_TYPE now r direct w task' direct' w' err ->
  StartTimestamp (DVMStatus direct')
  = StartTimestamp (DVMStatus (started now direct)) ->
  exists final requeue,
    migrate Run progressReport RunningMessage SucceededMessage FatalPlanError
            FastReQ NoReQ RSYNC_ENDPOINT_TYPE now r direct w
    = Returns (final, w', requeue, None)
    /\ StartTimestamp (DVMStatus final)
       = Some (default now (StartTimestamp (DVMStatus direct))).
Proof.
  intros Hruns Hkept.
  assert (Hstamp : StartTimestamp (DVMStatus direct')
                   = Some (default now (StartTimestamp (DVMStatus direct)))).
  { rewrite Hkept. unfold started.
    destruct (StartTimestamp (DVMStatus direct)) eqn:E; [exact E | reflexivity]. }
  rewrite (migrate_runs _ _ _ _ _ _ _ _ _ _ _ _ _ _ _ _ Hruns).
  destruct (runError FatalPlanError err task' direct')
    as [[task2 direct2]|] eqn:Herr; [|eauto].
  eexists _, _. split; [reflexivity|]. rewrite result_StartTimestamp.
  unfold runError in Herr. destruct err as [e|];
    [|by injection Herr as _ <-].
  destruct (k8serrors.IsConflict _); [discriminate|].
  by destruct (errors.Is e FatalPlanError); injection Herr as _ <-.
Qed.

End StartTimestampFacts.

Lemma migrate_start_timestamp_witness :
  (exists final requeue,
     fixtures.reconcile (fixtures.runsTo "WaitForRsyncClientPods" 3000%Z)
       fixtures.healthy fixtures.owned 0
     = Returns (final, 1, requeue, None)
     /\ migapi.StartTimestamp (migapi.DVMStatus final) = Some 42%Z)
  /\ (exists final requeue,
        fixtures.reconcile (fixtures.failsWith (LibError fixtures.podFailed))
          fixtures.healthy fixtures.inProgress 0
        = Returns (final, 1, requeue, None)
        /\ migapi.StartTimestamp (migapi.DVMStatus final) = Some 7%Z).
Proof.
  split.
  - eapply (migrate_start_timestamp
              (fixtures.runsTo "WaitForRsyncClientPods" 3000%Z)
              fixtures.report fixtures.runningMessage fixtures.succeededMessage
              fixtures.fatalPlanError 100%Z 0%Z fixtures.endpointKey 42%Z
              fixtures.healthy fixtures.owned 0).
    + eexists _, _, _; split; [repeat split; reflexivity | reflexivity].
    + reflexivity.
  - eapply (migrate_start_timestamp
              (fixtures.failsWith (LibError fixtures.podFailed))
              fixtures.report fixtures.runningMessage fixtures.succeededMessage
              fixtures.fatalPlanError 100%Z 0%Z fixtures.endpointKey 42%Z
              fixtures.healthy fixtures.inProgress 0).
    + eexists _, _, _; split; [repeat split; reflexivity | reflexivity].
    + reflexivity.
Defined.

(** * Further properties of the trace correlator *)

Section TracerFacts.

Import migapi directimagemigration.

Context {Tracer Span SpanContext : Type}.
Context (Enabled : bool) (InitJaeger : string -> Tracer).
Context (GetSpanForMigrationUID : string -> option Span).
Context (Context_ : Span -> SpanContext).
Context (StartSpan : Tracer -> string -> StartSpanOption SpanContext -> Span).

Local Abbreviation initTracer :=
  (initTracer Enabled InitJaeger GetSpanForMigrationUID Context_ StartSpan).

Lemma initTracer_reconciler (r : ReconcileDirectImageMigration)
    (dim : DirectImageMigration) :
  (initTracer r dim).1 = if Enabled then withTracer InitJaeger r else r.
Proof.
  unfold directimagemigration.initTracer. destruct Enabled; cbn [negb];
    [|reflexivity].
  by destruct (migrationSpanOf _ _).
Qed.

(** X18: the tracer of the reconciler is initialised lazily and at most
    once. With tracing enabled a call leaves a tracer on the reconciler,
    even when it returns no span; a tracer that is there is kept; a later
    call, for any object, leaves the reconciler as the first call left it
    and starts its span on the same tracer. With tracing disabled the
    reconciler is untouched. *)
Theorem initTracer_tracer_once (r : ReconcileDirectImageMigration)
    (dim dim' : DirectImageMigration) :
  let r' := (initTracer r dim).1 in
  (Enabled = true -> tracer r' = Some (theTracer InitJaeger r))
  /\ (Enabled = false -> r' = r)
  /\ (forall t, tracer r = Some t -> r' = r)
  /\ (initTracer r' dim').1 = r'
  /\ theTracer InitJaeger r' = theTracer InitJaeger r.
Proof.
  cbn zeta. rewrite !initTracer_reconciler.
  destruct Enabled, r as [[t|]]; cbn; repeat split;
    first [done | intros; discriminate].
Qed.

(** X19: owner references of other kinds do not count: for objects of the
    same name whose owner references of kind MigMigration are the same, in
    the same order, [initTracer] returns the same. *)
Theorem initTracer_owner_kinds (r : ReconcileDirectImageMigration)
    (dim dim' : DirectImageMigration) :
  DIMName dim = DIMName dim' ->
  filter (fun ownerRef => Kind ownerRef = "MigMigration") (DIMOwnerReferences dim)
  = filter (fun ownerRef => Kind ownerRef = "MigMigration")
           (DIMOwnerReferences dim') ->
  initTracer r dim = initTracer r dim'.
Proof.
  intros Hname Hrefs. unfold directimagemigration.initTracer.
  rewrite !migrationSpanOf_last, Hname, Hrefs. reflexivity.
Qed.

End TracerFacts.

Lemma initTracer_tracer_once_witness :
  directimagemigration.tracer
    (fixtures.trace true {| directimagemigration.tracer := None |}
                    (fixtures.image [])).1
  = Some "DirectImageMigration"
  /\ (fixtures.trace true
        (fixtures.trace true {| directimagemigration.tracer := Some "mine" |}
                        (fixtures.image [])).1
        (fixtures.image [fixtures.owner])).1
     = {| directimagemigration.tracer := Some "mine" |}.
Proof.
  split.
  - apply (proj1 (initTracer_tracer_once true (fun service : string => service)
                    fixtures.registered (fun span => span) fixtures.startSpan
                    {| directimagemigration.tracer := None |}
                    (fixtures.image []) (fixtures.image []))).
    reflexivity.
  - apply (proj1 (proj2 (proj2 (proj2
             (initTracer_tracer_once true (fun service : string => service)
                fixtures.registered (fun span => span) fixtures.startSpan
                {| directimagemigration.tracer := Some "mine" |}
                (fixtures.image []) (fixtures.image [fixtures.owner])))))).
Defined.

Lemma initTracer_owner_kinds_witness :
  fixtures.trace true {| directimagemigration.tracer := None |}
    (fixtures.image
       [ {| migapi.Kind := "MigPlan"; migapi.UID := "uid-9";
            migapi.OwnerName := "plan" |};
         fixtures.owner ])
  = fixtures.trace true {| directimagemigration.tracer := None |}
      (fixtures.image [fixtures.owner]).
Proof.
  apply (initTracer_owner_kinds true (fun service : string => service)
           fixtures.registered (fun span => span) fixtures.startSpan);
    reflexivity.
Defined.
